(** * Project0/proj.cpp: the OpenMP array-multiply benchmark

    A shallow embedding of [main] of [src/Project0/proj.cpp] and the
    properties its specification states about it.

    - [float] and [double] values are IEEE 754 binary32 and binary64 numbers,
      represented by [spec_float] with the operations of [SpecFloat]
      (round to nearest, ties to even).
    - The three global arrays are lists updated by index.
    - [omp_get_wtime], the order in which the OpenMP runtime executes the
      iterations of a parallel loop and the sign bit of a printed NaN are
      inputs of the run (an environment).
    - [main] is a state-passing function; its state also holds the two
      output streams and the two aggregate locals. *)

From Stdlib Require Import ZArith QArith Lia Bool Ascii String.
From Stdlib Require Import Floats.SpecFloat.
From stdpp Require Import base list strings pretty.

Local Open Scope Z_scope.

(** ** Floating-point numbers *)

#[global] Instance spec_float_inhabited : Inhabited spec_float :=
  populate (S754_zero false).

#[global] Instance spec_float_eq_dec : EqDecision spec_float.
Proof. solve_decision. Defined.

(** [double]: IEEE 754 binary64. *)
Module Double.
Definition prec : Z := 53.
Definition emax : Z := 1024.

Definition add : spec_float -> spec_float -> spec_float := SFadd prec emax.
Definition sub : spec_float -> spec_float -> spec_float := SFsub prec emax.
Definition div : spec_float -> spec_float -> spec_float := SFdiv prec emax.

(** [a > b] of C: false as soon as one side is a NaN. *)
Definition gtb (a b : spec_float) : bool :=
  match SFcompare a b with Some Gt => true | _ => false end.
(** [a >= b] of C. *)
Definition geb (a b : spec_float) : bool :=
  match SFcompare a b with Some (Gt | Eq) => true | _ => false end.
(** [a == b] of C. *)
Definition eqb (a b : spec_float) : bool := SFeqb a b.

(** [(double)n] for an [int] n, and decimal literals with an integer
    value. *)
Definition of_int (n : Z) : spec_float := binary_normalize prec emax n 0 false.

Definition valid (x : spec_float) : bool := valid_binary prec emax x.

(** The exact value of a finite number, counted in units of 2^-1074 (the
    least positive [double]), and as a rational. *)
Definition scaled (x : spec_float) : Z :=
  match x with
  | S754_finite s m e => cond_Zopp s (Zpos m * 2 ^ (e + 1074))
  | _ => 0
  end.

Definition to_Q (x : spec_float) : Q := Qmake (scaled x) (2 ^ 1074)%positive.
End Double.

(** [float]: IEEE 754 binary32. *)
Module Float.
Definition prec : Z := 24.
Definition emax : Z := 128.

Definition mul : spec_float -> spec_float -> spec_float := SFmul prec emax.

(** Conversion of a [double] to [float], as in [A[i] = 1.]. *)
Definition of_double (x : spec_float) : spec_float :=
  match x with
  | S754_finite s m e => binary_round prec emax s m e
  | _ => x
  end.

Definition eqb (a b : spec_float) : bool := SFeqb a b.
End Float.

(** [fexp 53 1024], the exponent function of the binary64 format, written
    out. *)
Definition fexp64 (x : Z) : Z := Z.max (x - 53) (-1074).

(** The literals of the source. *)
Definition lit_0 : spec_float := S754_zero false.                           (* 0. *)
Definition lit_1 : spec_float := Eval vm_compute in Double.of_int 1.        (* 1. *)
Definition lit_2 : spec_float := Eval vm_compute in Double.of_int 2.        (* 2. *)
Definition lit_1000000 : spec_float := Eval vm_compute in Double.of_int 1000000. (* 1000000. *)

(** 1.0f and 2.0f, the values the arrays are filled with. *)
Definition float_1 : spec_float := Eval vm_compute in Float.of_double lit_1.
Definition float_2 : spec_float := Eval vm_compute in Float.of_double lit_2.

(** ** Configuration: the three macros *)

Record config := Config {
  NUMT : nat;      (* #define NUMT *)
  SIZE : nat;      (* #define SIZE *)
  NUMTRIES : nat   (* #define NUMTRIES *)
}.

(** The values in the source file. *)
Definition proj_config : config :=
  {| NUMT := 1; SIZE := 32742; NUMTRIES := 1000 |}.

(** ** Environment of a run *)

Record env := Env {
  (** is [_OPENMP] defined *)
  has_openmp : bool;
  (** the value returned by the k-th call of [omp_get_wtime] *)
  wtime : nat -> spec_float;
  (** the order in which the iterations of the t-th parallel region are
      executed by the team of threads *)
  schedule : nat -> list nat;
  (** the sign bit of a value that is a NaN when it is printed: [spec_float]
      has a single NaN without a sign, while printf prints the sign of the
      NaN it is given ([-nan] for the NaN that 0.0/0.0 and inf - inf give on
      x86, whose sign bit is set) *)
  nan_sign : bool
}.

(** ** Program state *)

Record state := State {
  A : list spec_float;
  B : list spec_float;
  C : list spec_float;
  err : string;               (* what was written to stderr *)
  out : string;               (* what was written to stdout *)
  clock : nat;                (* number of calls of omp_get_wtime so far *)
  maxMegaMults : spec_float;
  sum : spec_float
}.

Definition set_A (f : list spec_float -> list spec_float) (s : state) : state :=
  State (f (A s)) (B s) (C s) (err s) (out s) (clock s) (maxMegaMults s) (sum s).
Definition set_B (f : list spec_float -> list spec_float) (s : state) : state :=
  State (A s) (f (B s)) (C s) (err s) (out s) (clock s) (maxMegaMults s) (sum s).
Definition set_C (f : list spec_float -> list spec_float) (s : state) : state :=
  State (A s) (B s) (f (C s)) (err s) (out s) (clock s) (maxMegaMults s) (sum s).
Definition fprintf_stderr (msg : string) (s : state) : state :=
  State (A s) (B s) (C s) (err s +:+ msg) (out s) (clock s) (maxMegaMults s) (sum s).
Definition printf (msg : string) (s : state) : state :=
  State (A s) (B s) (C s) (err s) (out s +:+ msg) (clock s) (maxMegaMults s) (sum s).
Definition set_maxMegaMults (x : spec_float) (s : state) : state :=
  State (A s) (B s) (C s) (err s) (out s) (clock s) x (sum s).
Definition set_sum (x : spec_float) (s : state) : state :=
  State (A s) (B s) (C s) (err s) (out s) (clock s) (maxMegaMults s) x.

(** [omp_get_wtime()]: returns the next clock reading. *)
Definition omp_get_wtime (e : env) (s : state) : spec_float * state :=
  (wtime e (clock s),
   State (A s) (B s) (C s) (err s) (out s) (S (clock s)) (maxMegaMults s) (sum s)).

(** Globals have static storage: all three arrays start zero-filled, the
    streams empty. The two locals get their values in [main]. *)
Definition initial_state (cfg : config) : state :=
  let z := replicate (SIZE cfg) (S754_zero false) in
  State z z z "" "" 0 (S754_zero false) (S754_zero false).

(** ** Loops *)

(** [for (int i = 0; i < n; i++) body] *)
Definition for_loop {S : Type} (n : nat) (body : nat -> S -> S) (s : S) : S :=
  foldl (fun s i => body i s) s (seq 0 n).

(** [#pragma omp parallel for]: every iteration of the loop is executed once
    by some thread of the team; [order] is the order in which the runtime
    happened to execute them. An iteration here reads [A[i]] and [B[i]] and
    writes [C[i]] only, so running it in one step loses no behaviour. *)
Definition omp_parallel_for {S : Type} (order : list nat) (body : nat -> S -> S) (s : S) : S :=
  foldl (fun s i => body i s) s order.

(** The ways a team of threads can run their iteration lists: at each step
    some thread executes the next iteration of its own list. *)
Inductive interleaving : list (list nat) -> list nat -> Prop :=
  | interleaving_done chunks :
      Forall (fun c => c = []) chunks -> interleaving chunks []
  | interleaving_step chunks k i rest order :
      chunks !! k = Some (i :: rest) ->
      interleaving (<[k := rest]> chunks) order ->
      interleaving chunks (i :: order).

(** [order] is an execution of the iteration space [0, n) by [numt] threads:
    the iterations are divided among the threads (how is up to the
    runtime), and the threads are interleaved. *)
Definition omp_execution (numt n : nat) (order : list nat) : Prop :=
  exists chunks : list (list nat),
    length chunks = numt /\ concat chunks ≡ₚ seq 0 n /\ interleaving chunks order.

(** The usual static division: thread k gets the k-th block of
    ceil(n / numt) consecutive iterations. *)
Definition static_chunks (numt n : nat) : list (list nat) :=
  let q := Nat.div (n + numt - 1) numt in
  map (fun k => seq (k * q) (Nat.min q (n - k * q))) (seq 0 numt).

(** ** The body of main *)

Definition init_body (i : nat) (s : state) : state :=
  set_B (fun b => <[i := Float.of_double lit_2]> b)
    (set_A (fun a => <[i := Float.of_double lit_1]> a) s).

Definition multiply_body (i : nat) (s : state) : state :=
  set_C (fun c => <[i := Float.mul (A s !!! i) (B s !!! i)]> c) s.

(** [(double)SIZE / (time1 - time0) / 1000000.] *)
Definition megaMults_of (cfg : config) (time0 time1 : spec_float) : spec_float :=
  Double.div (Double.div (Double.of_int (Z.of_nat (SIZE cfg))) (Double.sub time1 time0))
             lit_1000000.

Definition trial (cfg : config) (e : env) (t : nat) (s : state) : state :=
  let '(time0, s) := omp_get_wtime e s in
  let s := omp_parallel_for (schedule e t) multiply_body s in
  let '(time1, s) := omp_get_wtime e s in
  let megaMults := megaMults_of cfg time0 time1 in
  let s := set_sum (Double.add (sum s) megaMults) s in
  if Double.gtb megaMults (maxMegaMults s)
  then set_maxMegaMults megaMults s
  else s.

(** ** printf *)

(** [num / den] rounded to the nearest integer, ties to even. *)
Definition round_half_even (num den : Z) : Z :=
  let q := num / den in
  let r := num mod den in
  match 2 * r ?= den with
  | Lt => q
  | Gt => q + 1
  | Eq => if Z.even q then q else q + 1
  end.

(** |m * 2^e| * 100 rounded to an integer: the digits [%.2f] prints. *)
Definition hundredths (m : positive) (e : Z) : Z :=
  match e with
  | Zneg p => round_half_even (Zpos m * 100) (2 ^ Zpos p)
  | _ => Zpos m * 2 ^ e * 100
  end.

Definition sign_text (s : bool) : string := if s then "-" else "".

Definition decimal (n : Z) : string := pretty (Z.to_N n).

(** The conversion [%.2lf] without padding. A NaN prints as [nan] or
    [-nan] after its sign bit, which is not part of [spec_float] and is given
    by [nan_sign]. *)
Definition fixed2 (nan_sign : bool) (x : spec_float) : string :=
  match x with
  | S754_nan => sign_text nan_sign +:+ "nan"
  | S754_infinity s => sign_text s +:+ "inf"
  | S754_zero s => sign_text s +:+ "0.00"
  | S754_finite s m e =>
      let n := hundredths m e in
      sign_text s +:+ decimal (n / 100) +:+ "." +:+
      decimal (n / 10 mod 10) +:+ decimal (n mod 10)
  end.

Fixpoint spaces (n : nat) : string :=
  match n with
  | O => ""
  | S n => String " " (spaces n)
  end.

(** Right-justify in a field of at least [w] characters. *)
Definition pad_left (w : nat) (t : string) : string :=
  spaces (w - String.length t) +:+ t.

(** The conversion [%8.2lf]. *)
Definition format_8_2lf (nan_sign : bool) (x : spec_float) : string :=
  pad_left 8 (fixed2 nan_sign x).

Definition newline : string := String (ascii_of_nat 10) "".

(** [printf("Peak Performance = %8.2lf MegaMults/Sec\n", x)] *)
Definition peak_line (nan_sign : bool) (x : spec_float) : string :=
  "Peak Performance = " +:+ format_8_2lf nan_sign x +:+ " MegaMults/Sec" +:+ newline.

(** [printf("Average Performance = %8.2lf MegaMults/Sec\n", x)] *)
Definition average_line (nan_sign : bool) (x : spec_float) : string :=
  "Average Performance = " +:+ format_8_2lf nan_sign x +:+ " MegaMults/Sec" +:+ newline.

Definition no_openmp_message : string :=
  "OpenMP is not supported here -- sorry." +:+ newline.

(** [fprintf(stderr, "Using %d threads\n", NUMT)] *)
Definition using_threads_message (cfg : config) : string :=
  "Using " +:+ pretty (N.of_nat (NUMT cfg)) +:+ " threads" +:+ newline.

(** ** main *)

(** The result is the exit status and the final state.
    [omp_set_num_threads(NUMT)] changes no variable of the program: the size
    of the team is what [omp_execution (NUMT cfg)] asks of the schedules. *)
Definition main (cfg : config) (e : env) : Z * state :=
  let s := initial_state cfg in
  if negb (has_openmp e) then
    (1, fprintf_stderr no_openmp_message s)
  else
    let s := for_loop (SIZE cfg) init_body s in
    let s := fprintf_stderr (using_threads_message cfg) s in
    let s := set_maxMegaMults lit_0 s in
    let s := set_sum lit_0 s in
    let s := for_loop (NUMTRIES cfg) (trial cfg e) s in
    let s := printf (peak_line (nan_sign e) (maxMegaMults s)) s in
    let s := printf (average_line (nan_sign e)
               (Double.div (sum s) (Double.of_int (Z.of_nat (NUMTRIES cfg))))) s in
    (0, s).

(** The two reported numbers. *)
Definition peak (s : state) : spec_float := maxMegaMults s.
Definition average (cfg : config) (s : state) : spec_float :=
  Double.div (sum s) (Double.of_int (Z.of_nat (NUMTRIES cfg))).

(** The state [main] is in when the trial loop starts, and after [k] trials. *)
Definition after_init (cfg : config) : state :=
  set_sum lit_0 (set_maxMegaMults lit_0
    (fprintf_stderr (using_threads_message cfg)
       (for_loop (SIZE cfg) init_body (initial_state cfg)))).

Definition after_trials (cfg : config) (e : env) (k : nat) : state :=
  for_loop k (trial cfg e) (after_init cfg).

(** The printing that ends [main]. *)
Definition report (cfg : config) (e : env) (s : state) : state :=
  printf (average_line (nan_sign e) (average cfg s))
    (printf (peak_line (nan_sign e) (peak s)) s).

(** ** The trial samples, as the specification words them *)

(** [throughput = elementCount / (t1 - t0) / 1_000_000] *)
Definition spec_throughput (elementCount : nat) (t0 t1 : spec_float) : spec_float :=
  Double.div
    (Double.div (Double.of_int (Z.of_nat elementCount)) (Double.sub t1 t0))
    (Double.of_int 1000000).

(** The sample of trial [t]: the clock is read twice per trial. *)
Definition sample (cfg : config) (e : env) (t : nat) : spec_float :=
  spec_throughput (SIZE cfg) (wtime e (2 * t)%nat) (wtime e (2 * t + 1)%nat).

Definition samples (cfg : config) (e : env) (k : nat) : list spec_float :=
  map (sample cfg e) (seq 0 k).

(** [runningSum += throughput], from 0. *)
Definition running_sum (xs : list spec_float) : spec_float :=
  foldl Double.add lit_0 xs.

(** [peak = max(peak, throughput)], from 0. *)
Definition running_max (xs : list spec_float) : spec_float :=
  foldl (fun mx x => if Double.gtb x mx then x else mx) lit_0 xs.

(** ** What the specification says of the printed values *)

Definition is_digit (c : ascii) : bool :=
  match Ascii.is_nat c with Some _ => true | None => false end.

Definition ends_here (t : string) : bool :=
  match t with
  | String c (String d1 (String d2 "")) =>
      Ascii.eqb c "." && is_digit d1 && is_digit d2
  | _ => false
  end.

(** The text ends with a decimal point and two digits. *)
Fixpoint two_decimals (t : string) : bool :=
  ends_here t ||
  match t with
  | String _ t' => two_decimals t'
  | "" => false
  end.

(** "a fixed total field width and two digits after the decimal point" *)
Definition spec_value_format (t : string) : bool :=
  Nat.eqb (String.length t) 8 && two_decimals t.

Fixpoint no_newline (t : string) : bool :=
  match t with
  | "" => true
  | String c t' => negb (Ascii.eqb c (ascii_of_nat 10)) && no_newline t'
  end.

(** ** The order of floating-point numbers *)

Definition is_nan (x : spec_float) : bool :=
  match x with S754_nan => true | _ => false end.

Definition is_finite (x : spec_float) : bool :=
  match x with S754_zero _ | S754_finite _ _ _ => true | _ => false end.

(** [SFcompare] orders the numbers that are not NaN as these triples are
    ordered lexicographically. *)
Definition key (x : spec_float) : Z * Z * Z :=
  match x with
  | S754_nan => (0, 0, 0)
  | S754_zero _ => (0, 0, 0)
  | S754_infinity true => (-2, 0, 0)
  | S754_infinity false => (2, 0, 0)
  | S754_finite false m e => (1, e, Zpos m)
  | S754_finite true m e => (-1, - e, Zneg m)
  end.

Definition key_lt (a b : Z * Z * Z) : Prop :=
  a.1.1 < b.1.1 \/
  (a.1.1 = b.1.1 /\ (a.1.2 < b.1.2 \/ (a.1.2 = b.1.2 /\ a.2 < b.2))).

(** ** Runs used to exercise the theorems *)

(** A small configuration and run used to exercise the theorems:
    four elements, two threads, three trials. *)
Definition small_config : config := {| NUMT := 2; SIZE := 4; NUMTRIES := 3 |}.

Definition small_order : list nat := [0; 2; 1; 3]%nat.

(** Trial [t] starts at [t] seconds and takes 1/1024 s. *)
Definition small_env : env :=
  {| has_openmp := true;
     wtime := fun k =>
       binary_normalize 53 1024
         (1024 * Z.of_nat (Nat.div k 2) + Z.of_nat (Nat.modulo k 2)) (-10) false;
     schedule := fun _ => small_order;
     nan_sign := true |}.

Definition sequential_env : env :=
  {| has_openmp := true; wtime := fun _ => lit_0; schedule := fun _ => seq 0 4;
     nan_sign := true |}.


(** A run whose clock does not advance. *)
Definition frozen_clock_env : env :=
  {| has_openmp := true; wtime := fun _ => lit_1; schedule := fun _ => small_order;
     nan_sign := true |}.


(** What holds of one printed value. *)
Definition value_format (nan_sign : bool) (x : spec_float) : Prop :=
  (8 <= String.length (format_8_2lf nan_sign x))%nat /\
  no_newline (format_8_2lf nan_sign x) = true /\
  (is_finite x = true -> two_decimals (format_8_2lf nan_sign x) = true).

(** ** The exact mean *)





(** ** Runs used as counterexamples *)



(** The shipped configuration; trial [t] starts at [t] seconds and takes
    2^-22 s (about 0.24 microseconds). *)
Definition fast_env : env :=
  {| has_openmp := true;
     wtime := fun k =>
       binary_normalize 53 1024
         (2 ^ 22 * Z.of_nat (Nat.div k 2) + Z.of_nat (Nat.modulo k 2)) (-22) false;
     schedule := fun _ => seq 0 (SIZE proj_config);
     nan_sign := true |}.

(** One trial during which the clock goes back from 2 s to 1 s. *)
Definition single_trial_config : config := {| NUMT := 2; SIZE := 4; NUMTRIES := 1 |}.

Definition backwards_clock_env : env :=
  {| has_openmp := true;
     wtime := fun k => match k with O => lit_2 | _ => lit_1 end;
     schedule := fun _ => small_order;
     nan_sign := true |}.

(** * Properties *)

(** ** Strings *)

Lemma string_app_assoc (s1 s2 s3 : string) :
  (s1 +:+ s2) +:+ s3 = s1 +:+ (s2 +:+ s3).
Proof.
  induction s1 as [|a s1 IH]; [reflexivity|].
  change (String a ((s1 +:+ s2) +:+ s3) = String a (s1 +:+ (s2 +:+ s3))).
  f_equal. exact IH.
Qed.

Lemma string_length_app (s1 s2 : string) :
  String.length (s1 +:+ s2) = (String.length s1 + String.length s2)%nat.
Proof.
  induction s1 as [|a s1 IH]; [reflexivity|].
  change (S (String.length (s1 +:+ s2))
          = S (String.length s1 + String.length s2)).
  f_equal. exact IH.
Qed.

(** ** Loops *)

Lemma for_loop_0 {S : Type} (body : nat -> S -> S) (s : S) :
  for_loop 0 body s = s.
Proof. reflexivity. Qed.

Lemma for_loop_S {S : Type} (n : nat) (body : nat -> S -> S) (s : S) :
  for_loop (Datatypes.S n) body s = body n (for_loop n body s).
Proof. unfold for_loop. rewrite seq_S, foldl_app. reflexivity. Qed.

Lemma after_trials_S (cfg : config) (e : env) (k : nat) :
  after_trials cfg e (S k) = trial cfg e k (after_trials cfg e k).
Proof. apply for_loop_S. Qed.

Lemma main_no_openmp (cfg : config) (e : env) :
  has_openmp e = false ->
  main cfg e = (1, fprintf_stderr no_openmp_message (initial_state cfg)).
Proof. intros H. unfold main. rewrite H. reflexivity. Qed.

Lemma main_openmp (cfg : config) (e : env) :
  has_openmp e = true ->
  main cfg e = (0, report cfg e (after_trials cfg e (NUMTRIES cfg))).
Proof. intros H. unfold main. rewrite H. reflexivity. Qed.

(** ** Executions of a parallel loop *)

Lemma interleaving_perm (chunks : list (list nat)) (order : list nat) :
  interleaving chunks order -> order ≡ₚ concat chunks.
Proof.
  induction 1 as [chunks Hnil | chunks k i rest order Hk _ IH].
  - induction Hnil as [| c cs -> _ IHcs]; simpl; [reflexivity | exact IHcs].
  - rewrite IH.
    rewrite <- (take_drop_middle chunks k (i :: rest) Hk) at 2.
    rewrite insert_take_drop by (eapply lookup_lt_Some; eassumption).
    rewrite !concat_app. simpl.
    rewrite <- Permutation_middle. reflexivity.
Qed.

(** Every iteration of [0, n) is executed exactly once. *)
Lemma omp_execution_perm (numt n : nat) (order : list nat) :
  omp_execution numt n order -> order ≡ₚ seq 0 n.
Proof.
  intros (chunks & _ & Hc & Hi).
  rewrite (interleaving_perm _ _ Hi). exact Hc.
Qed.

Lemma omp_execution_elem (numt n : nat) (order : list nat) (i : nat) :
  omp_execution numt n order -> (i ∈ order <-> (i < n)%nat).
Proof.
  intros H. rewrite (omp_execution_perm _ _ _ H).
  rewrite elem_of_seq. lia.
Qed.

(** One thread runs the loop in program order. *)
Lemma interleaving_single (c order : list nat) :
  interleaving [c] order -> order = c.
Proof.
  remember [c] as chunks eqn:E. intros H. revert c E.
  induction H as [chunks Hnil | chunks k i rest order Hk _ IH]; intros c ->.
  - inversion Hnil; subst. reflexivity.
  - destruct k as [|k]; simpl in Hk; [| destruct k; discriminate].
    injection Hk as ->. f_equal. apply IH. reflexivity.
Qed.

Lemma interleaving_idle (chunks : list (list nat)) (order : list nat) :
  interleaving chunks order -> interleaving ([] :: chunks) order.
Proof.
  induction 1 as [chunks Hnil | chunks k i rest order Hk _ IH].
  - constructor. constructor; auto.
  - apply (interleaving_step _ (S k) i rest); [exact Hk | exact IH].
Qed.

(** Thread after thread, each in program order, is an execution. *)
Lemma interleaving_concat (chunks : list (list nat)) :
  interleaving chunks (concat chunks).
Proof.
  induction chunks as [|c cs IH]; simpl.
  - constructor. constructor.
  - induction c as [|i rest IHc]; simpl.
    + apply interleaving_idle, IH.
    + apply (interleaving_step _ 0%nat i rest); [reflexivity | exact IHc].
Qed.

Lemma omp_execution_sequential (n : nat) : omp_execution 1 n (seq 0 n).
Proof.
  exists [seq 0 n]. split; [reflexivity|]. split.
  - simpl. rewrite app_nil_r. reflexivity.
  - pose proof (interleaving_concat [seq 0 n]) as H.
    simpl in H. rewrite app_nil_r in H. exact H.
Qed.

(** The static division is an execution: the threads one after the other. *)
Lemma static_chunks_concat (numt n : nat) :
  (1 <= numt)%nat -> concat (static_chunks numt n) = seq 0 n.
Proof.
  intros Hn. unfold static_chunks.
  set (q := Nat.div (n + numt - 1) numt).
  assert (Hq : (n <= numt * q)%nat).
  { pose proof (Nat.div_mod (n + numt - 1) numt ltac:(lia)) as E.
    pose proof (Nat.mod_upper_bound (n + numt - 1) numt ltac:(lia)) as Hr.
    fold q in E. lia. }
  assert (Hj : forall j,
    concat (map (fun k => seq (k * q) (Nat.min q (n - k * q))) (seq 0 j))
    = seq 0 (Nat.min (j * q) n)).
  { induction j as [|j IH]; [reflexivity|].
    rewrite seq_S, map_app, concat_app, IH. simpl. rewrite app_nil_r.
    destruct (le_lt_dec n (j * q)) as [Hge | Hlt].
    - replace (Nat.min q (n - j * q)) with 0%nat by lia.
      simpl. rewrite app_nil_r. f_equal. lia.
    - replace (Nat.min (j * q) n) with (j * q)%nat by lia.
      replace (Nat.min (q + j * q) n)
        with (j * q + Nat.min q (n - j * q))%nat by lia.
      rewrite seq_app. reflexivity. }
  rewrite Hj. f_equal. lia.
Qed.

Lemma static_execution (numt n : nat) :
  (1 <= numt)%nat -> omp_execution numt n (concat (static_chunks numt n)).
Proof.
  intros Hn. exists (static_chunks numt n). split; [|split].
  - unfold static_chunks. rewrite length_map, length_seq. reflexivity.
  - rewrite static_chunks_concat by exact Hn. reflexivity.
  - apply interleaving_concat.
Qed.

(** ** The arrays *)

Lemma init_loop_arrays (n : nat) (s : state) :
  (n <= length (A s))%nat -> (n <= length (B s))%nat ->
  let s' := for_loop n init_body s in
  A s' = replicate n float_1 ++ drop n (A s) /\
  B s' = replicate n float_2 ++ drop n (B s) /\
  C s' = C s /\ err s' = err s /\ out s' = out s /\ clock s' = clock s.
Proof.
  induction n as [|n IH]; intros HA HB.
  - simpl. rewrite !drop_0. repeat split; reflexivity.
  - cbv zeta. rewrite for_loop_S.
    destruct IH as (EA & EB & EC & Ee & Eo & Ek); [lia | lia |].
    set (s1 := for_loop n init_body s) in *. clearbody s1.
    unfold init_body, set_A, set_B. cbn [A B C err out clock].
    change (Float.of_double lit_1) with float_1.
    change (Float.of_double lit_2) with float_2.
    rewrite EA, EB, EC, Ee, Eo, Ek.
    repeat split.
    + rewrite insert_app_r_alt by (rewrite length_replicate; lia).
      rewrite length_replicate, Nat.sub_diag.
      destruct (drop n (A s)) as [|x l] eqn:E.
      { apply (f_equal length) in E. rewrite length_drop in E. simpl in E. lia. }
      assert (drop (S n) (A s) = l) as ->
        by (rewrite <- Nat.add_1_r, <- drop_drop, E; reflexivity).
      rewrite replicate_S_end, <- app_assoc. reflexivity.
    + rewrite insert_app_r_alt by (rewrite length_replicate; lia).
      rewrite length_replicate, Nat.sub_diag.
      destruct (drop n (B s)) as [|x l] eqn:E.
      { apply (f_equal length) in E. rewrite length_drop in E. simpl in E. lia. }
      assert (drop (S n) (B s) = l) as ->
        by (rewrite <- Nat.add_1_r, <- drop_drop, E; reflexivity).
      rewrite replicate_S_end, <- app_assoc. reflexivity.
Qed.

Lemma after_init_fields (cfg : config) :
  let s := after_init cfg in
  A s = replicate (SIZE cfg) float_1 /\
  B s = replicate (SIZE cfg) float_2 /\
  C s = replicate (SIZE cfg) (S754_zero false) /\
  err s = using_threads_message cfg /\ out s = "" /\ clock s = 0%nat /\
  maxMegaMults s = lit_0 /\ sum s = lit_0.
Proof.
  pose proof (init_loop_arrays (SIZE cfg) (initial_state cfg)) as H.
  simpl in H. rewrite !length_replicate in H.
  destruct H as (EA & EB & EC & Ee & Eo & Ek); [lia | lia |].
  unfold after_init; simpl.
  rewrite EA, EB, EC, Ee, Eo, Ek.
  rewrite drop_ge, !app_nil_r by (rewrite length_replicate; lia).
  repeat split; reflexivity.
Qed.

(** The parallel loop: frame and effect, for any list of iterations. *)
Lemma parallel_loop_frame (order : list nat) (s : state) :
  let s' := omp_parallel_for order multiply_body s in
  A s' = A s /\ B s' = B s /\ err s' = err s /\ out s' = out s /\
  clock s' = clock s /\ maxMegaMults s' = maxMegaMults s /\ sum s' = sum s /\
  length (C s') = length (C s).
Proof.
  revert s. induction order as [|i order IH]; intros s; simpl.
  - repeat split; reflexivity.
  - destruct (IH (multiply_body i s)) as (EA & EB & Ee & Eo & Ek & Em & Es & El).
    unfold omp_parallel_for in *. simpl in *.
    rewrite EA, EB, Ee, Eo, Ek, Em, Es, El, length_insert.
    repeat split; reflexivity.
Qed.

Lemma parallel_loop_skipped (order : list nat) (s : state) (i : nat) :
  i ∉ order -> C (omp_parallel_for order multiply_body s) !! i = C s !! i.
Proof.
  revert s. induction order as [|j order IH]; intros s Hi; simpl; [reflexivity|].
  apply not_elem_of_cons in Hi as [Hij Hi].
  unfold omp_parallel_for in *. simpl. rewrite IH by exact Hi.
  simpl. apply list_lookup_insert_ne. congruence.
Qed.

Lemma parallel_loop_written (order : list nat) (s : state) (i : nat) :
  i ∈ order -> (i < length (C s))%nat ->
  C (omp_parallel_for order multiply_body s) !! i
  = Some (Float.mul (A s !!! i) (B s !!! i)).
Proof.
  revert s. induction order as [|j order IH]; intros s Hi Hlen.
  - inversion Hi.
  - unfold omp_parallel_for in *. simpl.
    destruct (decide (i ∈ order)) as [Hin | Hout].
    + rewrite IH; [reflexivity | exact Hin |].
      simpl. rewrite length_insert. exact Hlen.
    + apply elem_of_cons in Hi as [-> | Hin]; [| contradiction].
      pose proof (parallel_loop_skipped order (multiply_body j s) j Hout) as E.
      unfold omp_parallel_for in E. rewrite E. simpl.
      apply list_lookup_insert_eq. exact Hlen.
Qed.

(** ** One trial *)

Lemma trial_fields (cfg : config) (e : env) (t : nat) (s : state) :
  let s' := trial cfg e t s in
  let x := megaMults_of cfg (wtime e (clock s)) (wtime e (S (clock s))) in
  A s' = A s /\ B s' = B s /\ err s' = err s /\ out s' = out s /\
  clock s' = S (S (clock s)) /\
  C s' = C (omp_parallel_for (schedule e t) multiply_body s) /\
  sum s' = Double.add (sum s) x /\
  maxMegaMults s' = (if Double.gtb x (maxMegaMults s) then x else maxMegaMults s).
Proof.
  cbv zeta. unfold trial, omp_get_wtime. cbn [A B C err out clock maxMegaMults sum].
  set (s0 := State (A s) (B s) (C s) (err s) (out s) (S (clock s))
                   (maxMegaMults s) (sum s)).
  destruct (parallel_loop_frame (schedule e t) s0)
    as (EA & EB & Ee & Eo & Ek & Em & Es & _).
  assert (EC : C (omp_parallel_for (schedule e t) multiply_body s0)
               = C (omp_parallel_for (schedule e t) multiply_body s)).
  { apply list_eq. intros i.
    destruct (decide (i ∈ schedule e t)) as [Hin | Hout].
    - destruct (decide (i < length (C s))%nat) as [Hlt | Hge].
      + rewrite !parallel_loop_written by assumption. reflexivity.
      + rewrite !lookup_ge_None_2; [reflexivity | |].
        * destruct (parallel_loop_frame (schedule e t) s) as (_&_&_&_&_&_&_&El).
          cbv zeta in El. rewrite El. lia.
        * destruct (parallel_loop_frame (schedule e t) s0) as (_&_&_&_&_&_&_&El).
          cbv zeta in El. rewrite El. simpl. lia.
    - rewrite !parallel_loop_skipped by assumption. reflexivity. }
  set (s1 := omp_parallel_for (schedule e t) multiply_body s0) in *.
  clearbody s1. cbv zeta in *. simpl in EA, EB, Ee, Eo, Ek, Em, Es.
  unfold set_sum, set_maxMegaMults. cbn [A B C err out clock maxMegaMults sum].
  rewrite Ek, Em, Es.
  destruct (Double.gtb _ _); cbn [A B C err out clock maxMegaMults sum];
    rewrite ?EA, ?EB, ?Ee, ?Eo, ?Ek, ?EC; repeat split; reflexivity.
Qed.

(** After a trial every element of [C] is the product of the elements of
    [A] and [B], whatever the execution of the parallel loop was. *)
Lemma trial_multiplies (cfg : config) (e : env) (t : nat) (s : state) (i : nat) :
  omp_execution (NUMT cfg) (SIZE cfg) (schedule e t) ->
  length (C s) = SIZE cfg ->
  (i < SIZE cfg)%nat ->
  C (trial cfg e t s) !! i = Some (Float.mul (A s !!! i) (B s !!! i)).
Proof.
  intros Hx Hlen Hi.
  destruct (trial_fields cfg e t s) as (_ & _ & _ & _ & _ & EC & _).
  rewrite EC. apply parallel_loop_written.
  - apply (omp_execution_elem _ _ _ i Hx). exact Hi.
  - lia.
Qed.

Lemma trial_length_C (cfg : config) (e : env) (t : nat) (s : state) :
  length (C (trial cfg e t s)) = length (C s).
Proof.
  destruct (trial_fields cfg e t s) as (_ & _ & _ & _ & _ & EC & _).
  rewrite EC.
  destruct (parallel_loop_frame (schedule e t) s) as (_&_&_&_&_&_&_&El).
  exact El.
Qed.

(** ** The trial loop *)

Lemma samples_S (cfg : config) (e : env) (k : nat) :
  samples cfg e (S k) = samples cfg e k ++ [sample cfg e k].
Proof. unfold samples. rewrite seq_S, map_app. reflexivity. Qed.

Lemma running_sum_snoc (xs : list spec_float) (x : spec_float) :
  running_sum (xs ++ [x]) = Double.add (running_sum xs) x.
Proof. unfold running_sum. rewrite foldl_app. reflexivity. Qed.

Lemma running_max_snoc (xs : list spec_float) (x : spec_float) :
  running_max (xs ++ [x])
  = if Double.gtb x (running_max xs) then x else running_max xs.
Proof. unfold running_max. rewrite foldl_app. reflexivity. Qed.

Lemma after_trials_fields (cfg : config) (e : env) (k : nat) :
  let s := after_trials cfg e k in
  A s = replicate (SIZE cfg) float_1 /\
  B s = replicate (SIZE cfg) float_2 /\
  length (C s) = SIZE cfg /\
  err s = using_threads_message cfg /\ out s = "" /\
  clock s = (2 * k)%nat /\
  sum s = running_sum (samples cfg e k) /\
  maxMegaMults s = running_max (samples cfg e k).
Proof.
  induction k as [|k IH]; cbv zeta.
  - destruct (after_init_fields cfg) as (EA & EB & EC & Ee & Eo & Ek & Em & Es).
    unfold after_trials. rewrite for_loop_0.
    rewrite EA, EB, EC, Ee, Eo, Ek, Em, Es, length_replicate.
    repeat split; reflexivity.
  - cbv zeta in IH. destruct IH as (EA & EB & EC & Ee & Eo & Ek & Es & Em).
    rewrite after_trials_S.
    destruct (trial_fields cfg e k (after_trials cfg e k))
      as (FA & FB & Fe & Fo & Fk & _ & Fs & Fm).
    rewrite trial_length_C.
    rewrite FA, FB, Fe, Fo, Fk, Fs, Fm, EA, EB, EC, Ee, Eo, Ek, Es, Em.
    rewrite samples_S, running_sum_snoc, running_max_snoc.
    replace (megaMults_of cfg (wtime e (2 * k)%nat) (wtime e (S (2 * k))))
      with (sample cfg e k)
      by (unfold sample; rewrite Nat.add_1_r; reflexivity).
    repeat split; try reflexivity. lia.
Qed.

Lemma report_fields (cfg : config) (e : env) (s : state) :
  let s' := report cfg e s in
  A s' = A s /\ B s' = B s /\ C s' = C s /\ err s' = err s /\
  clock s' = clock s /\ maxMegaMults s' = maxMegaMults s /\ sum s' = sum s /\
  out s' = (out s +:+ peak_line (nan_sign e) (peak s))
           +:+ average_line (nan_sign e) (average cfg s).
Proof. repeat split; reflexivity. Qed.

Lemma small_order_execution : omp_execution 2 4 small_order.
Proof.
  exists [[0; 1]; [2; 3]]%nat. split; [reflexivity|]. split; [reflexivity|].
  apply (interleaving_step _ 0%nat 0%nat [1%nat]); [reflexivity|]. simpl.
  apply (interleaving_step _ 1%nat 2%nat [3%nat]); [reflexivity|]. simpl.
  apply (interleaving_step _ 0%nat 1%nat []); [reflexivity|]. simpl.
  apply (interleaving_step _ 1%nat 3%nat []); [reflexivity|]. simpl.
  constructor. repeat constructor.
Qed.

(** ** C1, C2: the output array *)

(** C1. For every trial of a run, with any number of threads (at least one)
    and any execution of the parallel loop by them, after the trial every
    element of [C] equals the product of the elements of [A] and [B] at the
    same index, and that product is 2.0. *)
Theorem product_after_every_trial (cfg : config) (e : env) (k i : nat) :
  (1 <= NUMT cfg)%nat ->
  (forall t, omp_execution (NUMT cfg) (SIZE cfg) (schedule e t)) ->
  (i < SIZE cfg)%nat ->
  let s := after_trials cfg e (S k) in
  C s !! i = Some (Float.mul (A s !!! i) (B s !!! i)) /\
  Float.eqb (C s !!! i) (Float.mul (A s !!! i) (B s !!! i)) = true /\
  C s !!! i = float_2.
Proof.
  intros _ Hx Hi. cbv zeta.
  destruct (after_trials_fields cfg e k) as (EA & EB & EC & _).
  destruct (after_trials_fields cfg e (S k)) as (FA & FB & _).
  pose proof (trial_multiplies cfg e k (after_trials cfg e k) i (Hx k) EC Hi) as H.
  rewrite <- after_trials_S in H. rewrite EA, EB in H.
  rewrite FA, FB.
  rewrite !lookup_total_replicate_2 in * by exact Hi.
  rewrite (list_lookup_total_correct _ _ _ H).
  split; [exact H|]. split; reflexivity.
Qed.

Lemma product_after_every_trial_witness :
  (1 <= NUMT small_config)%nat /\
  C (after_trials small_config small_env 1) !!! 3%nat = float_2.
Proof.
  split; [simpl; lia|].
  apply (product_after_every_trial small_config small_env 0 3).
  - simpl; lia.
  - intros t. exact small_order_execution.
  - simpl; lia.
Defined.

Lemma main_output_array (cfg : config) (e : env) :
  has_openmp e = true ->
  (forall t, omp_execution (NUMT cfg) (SIZE cfg) (schedule e t)) ->
  C (snd (main cfg e))
  = replicate (SIZE cfg)
      (match NUMTRIES cfg with O => S754_zero false | S _ => float_2 end).
Proof.
  intros Ho Hx. rewrite main_openmp by exact Ho. simpl.
  destruct (NUMTRIES cfg) as [|k].
  - destruct (after_init_fields cfg) as (_ & _ & EC & _). exact EC.
  - apply list_eq. intros i.
    destruct (decide (i < SIZE cfg)%nat) as [Hi | Hi].
    + destruct (after_trials_fields cfg e k) as (EA & EB & EC & _).
      pose proof (trial_multiplies cfg e k _ i (Hx k) EC Hi) as H.
      rewrite <- after_trials_S in H. rewrite H, EA, EB.
      rewrite !lookup_total_replicate_2 by exact Hi.
      rewrite lookup_replicate_2 by exact Hi. reflexivity.
    + destruct (after_trials_fields cfg e (S k)) as (_ & _ & EC & _).
      rewrite !lookup_ge_None_2; [reflexivity | |].
      * rewrite length_replicate. lia.
      * rewrite EC. lia.
Qed.

(** C2. A run with one thread and a run with N > 1 threads leave the same
    contents in [C], whatever the executions of the parallel loops and
    whatever the clock readings. *)
Theorem thread_count_irrelevant (size tries N : nat) (e1 eN : env) :
  (1 < N)%nat ->
  has_openmp e1 = true -> has_openmp eN = true ->
  (forall t, omp_execution 1 size (schedule e1 t)) ->
  (forall t, omp_execution N size (schedule eN t)) ->
  C (snd (main {| NUMT := 1; SIZE := size; NUMTRIES := tries |} e1))
  = C (snd (main {| NUMT := N; SIZE := size; NUMTRIES := tries |} eN)).
Proof.
  intros _ H1 HN Hx1 HxN.
  rewrite (main_output_array _ e1 H1) by exact Hx1.
  rewrite (main_output_array _ eN HN) by exact HxN.
  reflexivity.
Qed.

Lemma thread_count_irrelevant_witness :
  C (snd (main {| NUMT := 1; SIZE := 4; NUMTRIES := 3 |} sequential_env))
  = C (snd (main {| NUMT := 2; SIZE := 4; NUMTRIES := 3 |} small_env)).
Proof.
  apply (thread_count_irrelevant 4 3 2 sequential_env small_env).
  - lia.
  - reflexivity.
  - reflexivity.
  - intros t. apply omp_execution_sequential.
  - intros t. exact small_order_execution.
Defined.

(** ** C7, C8: the input arrays *)

(** C7. For an element count greater than 0, when the initialisation is done
    and no trial has run yet, every element of [A] is 1.0 and every element
    of [B] is 2.0. *)
Theorem inputs_initialized (cfg : config) (i : nat) :
  (0 < SIZE cfg)%nat -> (i < SIZE cfg)%nat ->
  let s := after_init cfg in
  A s !! i = Some float_1 /\ B s !! i = Some float_2 /\
  length (A s) = SIZE cfg /\ length (B s) = SIZE cfg /\ clock s = 0%nat.
Proof.
  intros _ Hi. cbv zeta.
  destruct (after_init_fields cfg) as (EA & EB & _ & _ & _ & Ek & _).
  rewrite EA, EB, Ek, !length_replicate, !lookup_replicate_2 by exact Hi.
  repeat split; reflexivity.
Qed.

Lemma inputs_initialized_witness :
  A (after_init small_config) !! 2%nat = Some float_1 /\
  B (after_init small_config) !! 2%nat = Some float_2.
Proof.
  destruct (inputs_initialized small_config 2) as (HA & HB & _).
  - simpl; lia.
  - simpl; lia.
  - split; [exact HA | exact HB].
Defined.

(** C8. A trial leaves [A] and [B] as they were; in a run they keep the
    values of the initialisation through every trial. A trial does not
    write to the output streams either. *)
Theorem trial_preserves_inputs (cfg : config) (e : env) :
  (forall t s,
     A (trial cfg e t s) = A s /\ B (trial cfg e t s) = B s /\
     err (trial cfg e t s) = err s /\ out (trial cfg e t s) = out s) /\
  (forall k,
     A (after_trials cfg e k) = A (after_init cfg) /\
     B (after_trials cfg e k) = B (after_init cfg)).
Proof.
  split.
  - intros t s.
    destruct (trial_fields cfg e t s) as (EA & EB & Ee & Eo & _).
    repeat split; assumption.
  - intros k.
    destruct (after_trials_fields cfg e k) as (EA & EB & _).
    destruct (after_init_fields cfg) as (FA & FB & _).
    rewrite EA, EB, FA, FB. split; reflexivity.
Qed.

(** ** The order of floating-point numbers *)

Lemma SFcompare_key (x y : spec_float) :
  is_nan x = false -> is_nan y = false ->
  match SFcompare x y with
  | Some Lt => key_lt (key x) (key y)
  | Some Eq => key x = key y
  | Some Gt => key_lt (key y) (key x)
  | None => False
  end.
Proof.
  intros Hx Hy. unfold key_lt.
  destruct x as [sx | sx | | sx mx ex], y as [sy | sy | | sy my ey];
    try discriminate; try destruct sx; try destruct sy; simpl; try lia; try reflexivity.
  - destruct (Z.compare_spec ex ey) as [-> | Hlt | Hgt]; simpl; try lia.
    change (Pos.compare_cont Eq mx my) with (Pos.compare mx my).
    destruct (Pos.compare_spec mx my) as [-> | H | H]; simpl; try reflexivity; lia.
  - destruct (Z.compare_spec ex ey) as [-> | Hlt | Hgt]; simpl; try lia.
    change (Pos.compare_cont Eq mx my) with (Pos.compare mx my).
    destruct (Pos.compare_spec mx my) as [-> | H | H]; simpl; try reflexivity; lia.
Qed.

Lemma gtb_key (x y : spec_float) :
  Double.gtb x y = true <->
  is_nan x = false /\ is_nan y = false /\ key_lt (key y) (key x).
Proof.
  unfold Double.gtb. split.
  - intros H.
    destruct (is_nan x) eqn:Hx; [destruct x; try discriminate Hx; discriminate H|].
    destruct (is_nan y) eqn:Hy;
      [destruct y; try discriminate Hy; destruct x; discriminate H|].
    pose proof (SFcompare_key x y Hx Hy) as K.
    destruct (SFcompare x y) as [[| |]|]; try discriminate H. auto.
  - intros (Hx & Hy & Hlt).
    pose proof (SFcompare_key x y Hx Hy) as K. unfold key_lt in *.
    destruct (SFcompare x y) as [[| |]|]; try reflexivity; try contradiction.
    + rewrite K in Hlt. lia.
    + lia.
Qed.

Lemma geb_key (x y : spec_float) :
  Double.geb x y = true <->
  is_nan x = false /\ is_nan y = false /\ ~ key_lt (key x) (key y).
Proof.
  unfold Double.geb. split.
  - intros H.
    destruct (is_nan x) eqn:Hx; [destruct x; try discriminate Hx; discriminate H|].
    destruct (is_nan y) eqn:Hy;
      [destruct y; try discriminate Hy; destruct x; discriminate H|].
    pose proof (SFcompare_key x y Hx Hy) as K. unfold key_lt in *.
    destruct (SFcompare x y) as [[| |]|]; try discriminate H.
    + rewrite K. repeat split; auto. lia.
    + repeat split; auto. lia.
  - intros (Hx & Hy & Hlt).
    pose proof (SFcompare_key x y Hx Hy) as K.
    destruct (SFcompare x y) as [[| |]|]; try reflexivity; contradiction.
Qed.

Lemma gtb_false_key (x y : spec_float) :
  is_nan x = false -> is_nan y = false ->
  Double.gtb x y = false -> ~ key_lt (key y) (key x).
Proof.
  intros Hx Hy H Hlt.
  assert (Double.gtb x y = true) by (apply gtb_key; auto). congruence.
Qed.

(** ** C10: the running maximum *)

Lemma running_max_not_nan (xs : list spec_float) :
  is_nan (running_max xs) = false.
Proof.
  induction xs as [|x xs IH] using rev_ind; [reflexivity|].
  rewrite running_max_snoc.
  destruct (Double.gtb x (running_max xs)) eqn:E; [|exact IH].
  apply gtb_key in E. tauto.
Qed.

Lemma running_max_nonneg (xs : list spec_float) :
  Double.geb (running_max xs) lit_0 = true.
Proof.
  induction xs as [|x xs IH] using rev_ind; [reflexivity|].
  rewrite running_max_snoc.
  destruct (Double.gtb x (running_max xs)) eqn:E; [|exact IH].
  apply gtb_key in E. destruct E as (Hx & Hm & Hlt).
  apply geb_key in IH. destruct IH as (_ & _ & IH).
  apply geb_key. split; [exact Hx|]. split; [reflexivity|].
  unfold key_lt in *. lia.
Qed.

Lemma running_max_member (xs : list spec_float) :
  running_max xs = lit_0 \/ running_max xs ∈ xs.
Proof.
  induction xs as [|x xs IH] using rev_ind; [left; reflexivity|].
  rewrite running_max_snoc.
  destruct (Double.gtb x (running_max xs)).
  - right. apply elem_of_app. right. apply list_elem_of_singleton. reflexivity.
  - destruct IH as [IH | IH]; [left; exact IH|].
    right. apply elem_of_app. left. exact IH.
Qed.

Lemma running_max_upper_bound (xs : list spec_float) (x : spec_float) :
  x ∈ xs -> Double.gtb x (running_max xs) = false.
Proof.
  induction xs as [|y xs IH] using rev_ind; [inversion 1|].
  intros Hin. rewrite running_max_snoc.
  pose proof (running_max_not_nan xs) as Hm.
  destruct (is_nan x) eqn:Hx.
  { destruct x; try discriminate Hx. reflexivity. }
  destruct (Double.gtb y (running_max xs)) eqn:E.
  - apply gtb_key in E. destruct E as (Hy & _ & Hlt).
    apply elem_of_app in Hin as [Hin | Hin].
    + specialize (IH Hin).
      pose proof (gtb_false_key _ _ Hx Hm IH) as Hle.
      destruct (Double.gtb x y) eqn:F; [|reflexivity].
      apply gtb_key in F. destruct F as (_ & _ & F).
      unfold key_lt in *. lia.
    + apply list_elem_of_singleton in Hin as ->.
      destruct (Double.gtb y y) eqn:F; [|reflexivity].
      apply gtb_key in F. destruct F as (_ & _ & F).
      unfold key_lt in *. lia.
  - apply elem_of_app in Hin as [Hin | Hin]; [exact (IH Hin)|].
    apply list_elem_of_singleton in Hin as ->. exact E.
Qed.

Lemma running_max_no_positive (xs : list spec_float) :
  (forall x, x ∈ xs -> Double.gtb x lit_0 = false) -> running_max xs = lit_0.
Proof.
  induction xs as [|y xs IH] using rev_ind; [reflexivity|].
  intros H. rewrite running_max_snoc.
  rewrite IH by (intros x Hx; apply H, elem_of_app; left; exact Hx).
  rewrite H; [reflexivity|].
  apply elem_of_app. right. apply list_elem_of_singleton. reflexivity.
Qed.

Lemma main_aggregates (cfg : config) (e : env) :
  has_openmp e = true ->
  let s := snd (main cfg e) in
  let xs := samples cfg e (NUMTRIES cfg) in
  fst (main cfg e) = 0 /\
  peak s = running_max xs /\
  sum s = running_sum xs /\
  average cfg s
  = Double.div (running_sum xs) (Double.of_int (Z.of_nat (NUMTRIES cfg))) /\
  out s = peak_line (nan_sign e) (peak s)
          +:+ average_line (nan_sign e) (average cfg s) /\
  err s = using_threads_message cfg /\
  clock s = (2 * NUMTRIES cfg)%nat.
Proof.
  intros Ho. cbv zeta. rewrite main_openmp by exact Ho.
  destruct (after_trials_fields cfg e (NUMTRIES cfg))
    as (_ & _ & _ & Ee & Eo & Ek & Es & Em).
  unfold snd, fst.
  destruct (report_fields cfg e (after_trials cfg e (NUMTRIES cfg)))
    as (_ & _ & _ & Fe & Fk & Fm & Fs & Fo).
  unfold average, peak in *. rewrite Fo, Fe, Fk, Fm, Fs, Eo, Ee, Ek, Es, Em.
  repeat split; reflexivity.
Qed.

(** C10. The reported peak is never negative: it is the running maximum
    started at 0, so it is 0 or one of the samples, no sample is greater
    than it, and it is 0 when no sample is greater than 0. *)
Theorem peak_is_max_with_zero (cfg : config) (e : env) :
  has_openmp e = true ->
  let s := snd (main cfg e) in
  let xs := samples cfg e (NUMTRIES cfg) in
  Double.geb (peak s) lit_0 = true /\
  (peak s = lit_0 \/ peak s ∈ xs) /\
  (forall x, x ∈ xs -> Double.gtb x (peak s) = false) /\
  ((forall x, x ∈ xs -> Double.gtb x lit_0 = false) -> peak s = lit_0) /\
  exists rest,
    out s = "Peak Performance = " +:+ format_8_2lf (nan_sign e) (peak s) +:+ rest.
Proof.
  intros Ho. cbv zeta.
  destruct (main_aggregates cfg e Ho) as (_ & Ep & _ & _ & Eout & _).
  rewrite Eout, Ep.
  split; [apply running_max_nonneg|].
  split; [apply running_max_member|].
  split; [apply running_max_upper_bound|].
  split; [apply running_max_no_positive|].
  eexists. unfold peak_line. rewrite !string_app_assoc. reflexivity.
Qed.

Lemma peak_is_max_with_zero_witness :
  Double.geb (peak (snd (main small_config small_env))) lit_0 = true.
Proof.
  destruct (peak_is_max_with_zero small_config small_env) as (H & _).
  - reflexivity.
  - exact H.
Defined.

(** ** C5: the exit status *)

(** C5. Without OpenMP the process writes the diagnostic to the error
    stream and exits with status 1; the arrays are still as they were at
    start-up, the clock was never read (no trial ran) and nothing was
    printed. With OpenMP it runs all trials, prints the two result lines and
    exits with status 0. *)
Theorem exit_status (cfg : config) (w : nat -> spec_float) (sch : nat -> list nat)
    (ns : bool) :
  (let r := main cfg (Env false w sch ns) in
   fst r = 1 /\
   err (snd r) = no_openmp_message /\ out (snd r) = "" /\
   A (snd r) = replicate (SIZE cfg) (S754_zero false) /\
   B (snd r) = replicate (SIZE cfg) (S754_zero false) /\
   C (snd r) = replicate (SIZE cfg) (S754_zero false) /\
   clock (snd r) = 0%nat) /\
  (let r := main cfg (Env true w sch ns) in
   fst r = 0 /\
   err (snd r) = using_threads_message cfg /\
   out (snd r) = peak_line ns (peak (snd r))
                 +:+ average_line ns (average cfg (snd r)) /\
   clock (snd r) = (2 * NUMTRIES cfg)%nat).
Proof.
  split.
  - rewrite main_no_openmp by reflexivity. repeat split; reflexivity.
  - destruct (main_aggregates cfg (Env true w sch ns) eq_refl)
      as (E0 & _ & _ & _ & Eo & Ee & Ek).
    cbv zeta. rewrite E0. repeat split; assumption.
Qed.

(** ** C6: samples and average *)

Lemma add_not_finite_l (x y : spec_float) :
  is_finite x = false -> is_finite (Double.add x y) = false.
Proof.
  destruct x as [sx | sx | | sx mx ex]; try discriminate; intros _;
    destruct y as [sy | sy | | sy my ey]; try reflexivity;
    destruct sx, sy; reflexivity.
Qed.

Lemma add_not_finite_r (x y : spec_float) :
  is_finite y = false -> is_finite (Double.add x y) = false.
Proof.
  destruct y as [sy | sy | | sy my ey]; try discriminate; intros _;
    destruct x as [sx | sx | | sx mx ex]; try reflexivity;
    destruct sx, sy; reflexivity.
Qed.

Lemma div_not_finite (x y : spec_float) :
  is_finite x = false -> is_finite (Double.div x y) = false.
Proof.
  destruct x as [sx | sx | | sx mx ex]; try discriminate; intros _;
    destruct y as [sy | sy | | sy my ey]; reflexivity.
Qed.

Lemma running_sum_not_finite (xs : list spec_float) (x : spec_float) :
  x ∈ xs -> is_finite x = false -> is_finite (running_sum xs) = false.
Proof.
  induction xs as [|y xs IH] using rev_ind; [inversion 1|].
  intros Hin Hx. rewrite running_sum_snoc.
  apply elem_of_app in Hin as [Hin | Hin].
  - apply add_not_finite_l, IH; assumption.
  - apply list_elem_of_singleton in Hin as ->. apply add_not_finite_r, Hx.
Qed.

Lemma sample_in_samples (cfg : config) (e : env) (k t : nat) :
  (t < k)%nat -> sample cfg e t ∈ samples cfg e k.
Proof.
  intros Ht. unfold samples. apply list_elem_of_fmap.
  exists t. split; [reflexivity|]. apply elem_of_seq. lia.
Qed.

(** C6. Trial [t] adds to the running sum the sample
    [SIZE / (time1 - time0) / 1000000], where [time0] and [time1] are the two
    clock readings the trial takes around its parallel loop; the reported
    average is the sum of all samples divided by the number of trials.
    Nothing is done about a zero or negative [time1 - time0]: the formula is
    applied to whatever the clock returns, and a sample that is infinite or
    NaN makes the average infinite or NaN. *)
Theorem throughput_and_average (cfg : config) (e : env) :
  has_openmp e = true ->
  let s := snd (main cfg e) in
  (forall t, (t < NUMTRIES cfg)%nat ->
     let s_t := after_trials cfg e t in
     let time0 := wtime e (clock s_t) in
     let time1 := wtime e (S (clock s_t)) in
     clock (trial cfg e t s_t) = S (S (clock s_t)) /\
     sum (trial cfg e t s_t)
     = Double.add (sum s_t) (spec_throughput (SIZE cfg) time0 time1) /\
     sample cfg e t = spec_throughput (SIZE cfg) time0 time1) /\
  sum s = running_sum (samples cfg e (NUMTRIES cfg)) /\
  average cfg s = Double.div (sum s) (Double.of_int (Z.of_nat (NUMTRIES cfg))) /\
  (exists first, out s = first +:+ average_line (nan_sign e) (average cfg s)) /\
  (forall t, (t < NUMTRIES cfg)%nat ->
     is_finite (sample cfg e t) = false -> is_finite (average cfg s) = false).
Proof.
  intros Ho. cbv zeta.
  destruct (main_aggregates cfg e Ho) as (_ & _ & Es & Ea & Eo & _).
  split; [|split; [exact Es | split; [reflexivity | split]]].
  - intros t Ht.
    destruct (trial_fields cfg e t (after_trials cfg e t))
      as (_ & _ & _ & _ & Ek & _ & Fs & _).
    destruct (after_trials_fields cfg e t) as (_ & _ & _ & _ & _ & Ec & _).
    split; [exact Ek|]. split; [exact Fs|].
    rewrite Ec. unfold sample. rewrite Nat.add_1_r. reflexivity.
  - eexists. exact Eo.
  - intros t Ht Hinf. rewrite Ea. apply div_not_finite.
    apply (running_sum_not_finite _ (sample cfg e t)); [|exact Hinf].
    apply sample_in_samples. exact Ht.
Qed.

Lemma throughput_and_average_witness :
  sum (snd (main small_config small_env))
  = running_sum (samples small_config small_env 3).
Proof.
  destruct (throughput_and_average small_config small_env) as (_ & H & _).
  - reflexivity.
  - exact H.
Defined.

(** A trial whose two clock readings are equal has an infinite sample, and
    the run reports an infinite average. *)
Example frozen_clock_sample :
  sample small_config frozen_clock_env 0 = S754_infinity false /\
  average small_config (snd (main small_config frozen_clock_env)) = S754_infinity false.
Proof. split; vm_compute; reflexivity. Qed.

(** ** C9: the printed lines *)

Lemma no_newline_app (s1 s2 : string) :
  no_newline (s1 +:+ s2) = no_newline s1 && no_newline s2.
Proof.
  induction s1 as [|a s1 IH]; [reflexivity|].
  change (negb (Ascii.eqb a (ascii_of_nat 10)) && no_newline (s1 +:+ s2)
          = negb (Ascii.eqb a (ascii_of_nat 10)) && no_newline s1 && no_newline s2).
  rewrite IH, andb_assoc. reflexivity.
Qed.

Lemma pretty_N_char_digit (d : N) :
  is_digit (pretty_N_char d) = true /\
  Ascii.eqb (pretty_N_char d) (ascii_of_nat 10) = false.
Proof.
  unfold pretty_N_char.
  destruct d as [|p]; [split; reflexivity|].
  do 4 (try destruct p as [p | p |]); split; reflexivity.
Qed.

Lemma no_newline_pretty_go (x : N) (s : string) :
  no_newline s = true -> no_newline (pretty_N_go x s) = true.
Proof.
  revert s. induction (N.lt_wf_0 x) as [x _ IH]; intros s Hs.
  destruct (N.eq_dec x 0%N) as [-> | Hx].
  - rewrite pretty_N_go_0. exact Hs.
  - rewrite pretty_N_go_step by lia. apply IH.
    + apply N.div_lt; lia.
    + simpl. rewrite Hs.
      destruct (pretty_N_char_digit (x mod 10)) as [_ ->]. reflexivity.
Qed.

Lemma no_newline_decimal (n : Z) : no_newline (decimal n) = true.
Proof.
  unfold decimal, pretty, pretty_N.
  destruct (decide (Z.to_N n = 0%N)); [reflexivity|].
  apply no_newline_pretty_go. reflexivity.
Qed.

Lemma decimal_digit (d : Z) :
  0 <= d < 10 -> exists c, decimal d = String c "" /\ is_digit c = true.
Proof.
  intros H.
  assert (d = 0 \/ d = 1 \/ d = 2 \/ d = 3 \/ d = 4 \/ d = 5 \/ d = 6 \/
          d = 7 \/ d = 8 \/ d = 9) as E by lia.
  repeat destruct E as [-> | E]; try subst d;
    eexists; (split; [vm_compute; reflexivity | reflexivity]).
Qed.

Lemma no_newline_spaces (n : nat) : no_newline (spaces n) = true.
Proof. induction n as [|n IH]; [reflexivity | exact IH]. Qed.

Lemma length_spaces (n : nat) : String.length (spaces n) = n.
Proof. induction n as [|n IH]; [reflexivity | simpl; f_equal; exact IH]. Qed.

Lemma no_newline_fixed2 (ns : bool) (x : spec_float) :
  no_newline (fixed2 ns x) = true.
Proof.
  destruct x as [s | s | | s m e]; try (destruct s; reflexivity);
    [destruct ns; reflexivity|].
  unfold fixed2. rewrite !no_newline_app, !no_newline_decimal.
  destruct s; reflexivity.
Qed.

Lemma no_newline_format (ns : bool) (x : spec_float) :
  no_newline (format_8_2lf ns x) = true.
Proof.
  unfold format_8_2lf, pad_left.
  rewrite no_newline_app, no_newline_spaces, no_newline_fixed2. reflexivity.
Qed.

Lemma length_format (ns : bool) (x : spec_float) :
  String.length (format_8_2lf ns x) = Nat.max 8 (String.length (fixed2 ns x)).
Proof.
  unfold format_8_2lf, pad_left. rewrite string_length_app, length_spaces. lia.
Qed.

Lemma two_decimals_app (s : string) (d1 d2 : ascii) :
  is_digit d1 = true -> is_digit d2 = true ->
  two_decimals (s +:+ "." +:+ String d1 (String d2 "")) = true.
Proof.
  intros H1 H2. induction s as [|a s IH].
  - simpl. unfold ends_here. rewrite H1, H2. reflexivity.
  - change (ends_here (String a (s +:+ "." +:+ String d1 (String d2 "")))
            || two_decimals (s +:+ "." +:+ String d1 (String d2 "")) = true).
    rewrite IH. apply orb_true_r.
Qed.

Lemma two_decimals_finite (ns : bool) (x : spec_float) :
  is_finite x = true -> two_decimals (format_8_2lf ns x) = true.
Proof.
  intros Hx. unfold format_8_2lf, pad_left.
  destruct x as [s | s | | s m e]; try discriminate.
  - change (fixed2 ns (S754_zero s)) with (sign_text s +:+ "0" +:+ "." +:+ "00").
    rewrite <- !string_app_assoc. rewrite string_app_assoc.
    apply two_decimals_app; reflexivity.
  - unfold fixed2.
    destruct (decimal_digit (hundredths m e / 10 mod 10)) as (c1 & -> & H1);
      [apply Z.mod_pos_bound; lia|].
    destruct (decimal_digit (hundredths m e mod 10)) as (c2 & -> & H2);
      [apply Z.mod_pos_bound; lia|].
    rewrite <- !string_app_assoc.
    rewrite (string_app_assoc _ "." (String c1 "")).
    rewrite (string_app_assoc _ ("." +:+ String c1 "") (String c2 "")).
    apply two_decimals_app; assumption.
Qed.

(** The sign given for a NaN matters for a NaN only. *)
Lemma format_sign_irrelevant (ns1 ns2 : bool) (x : spec_float) :
  is_nan x = false -> format_8_2lf ns1 x = format_8_2lf ns2 x.
Proof. destruct x; try discriminate; reflexivity. Qed.

Lemma format_not_finite (ns : bool) (x : spec_float) :
  is_finite x = false ->
  two_decimals (format_8_2lf ns x) = false /\
  (format_8_2lf ns x = "     inf" \/ format_8_2lf ns x = "    -inf" \/
   format_8_2lf ns x = "     nan" \/ format_8_2lf ns x = "    -nan").
Proof.
  destruct x as [s | [|] | | s m e]; try discriminate; intros _.
  - split; [reflexivity|]. right; left; reflexivity.
  - split; [reflexivity|]. left; reflexivity.
  - destruct ns; (split; [reflexivity|]).
    + right; right; right; reflexivity.
    + right; right; left; reflexivity.
Qed.

(** With no trial the average is 0.0/0.0; where that NaN has its sign bit
    set, as on x86, the average is printed as [-nan]. *)
Example no_trials_average_text :
  format_8_2lf true
    (average {| NUMT := 1; SIZE := 4; NUMTRIES := 0 |}
       (snd (main {| NUMT := 1; SIZE := 4; NUMTRIES := 0 |} small_env)))
  = "    -nan".
Proof. vm_compute. reflexivity. Qed.

Lemma value_format_holds (ns : bool) (x : spec_float) : value_format ns x.
Proof.
  split; [rewrite length_format; lia|].
  split; [apply no_newline_format | apply two_decimals_finite].
Qed.

(** C9, as the code has it. On a successful run standard output is exactly
    two lines, the peak line and then the average line. Each value is
    right-justified in a field of at least 8 characters (the field grows
    when the text is longer), and a finite value ends with a decimal point
    and two digits. *)
Theorem printed_lines (cfg : config) (e : env) :
  has_openmp e = true ->
  let s := snd (main cfg e) in
  let value1 := format_8_2lf (nan_sign e) (peak s) in
  let value2 := format_8_2lf (nan_sign e) (average cfg s) in
  let line1 := "Peak Performance = " +:+ value1 +:+ " MegaMults/Sec" in
  let line2 := "Average Performance = " +:+ value2 +:+ " MegaMults/Sec" in
  out s = (line1 +:+ newline) +:+ (line2 +:+ newline) /\
  no_newline line1 = true /\ no_newline line2 = true /\
  value_format (nan_sign e) (peak s) /\
  value_format (nan_sign e) (average cfg s).
Proof.
  intros Ho. cbv zeta.
  destruct (main_aggregates cfg e Ho) as (_ & _ & _ & _ & Eo & _).
  split.
  - rewrite Eo. unfold peak_line, average_line.
    rewrite !string_app_assoc. reflexivity.
  - rewrite !no_newline_app, !no_newline_format.
    repeat split; try reflexivity; apply value_format_holds.
Qed.

Lemma printed_lines_witness :
  value_format (nan_sign small_env) (peak (snd (main small_config small_env))).
Proof.
  destruct (printed_lines small_config small_env) as (_ & _ & _ & H & _).
  - reflexivity.
  - exact H.
Defined.

(** C9, as stated, fails in two ways. On a run whose clock does not advance
    during a trial the values are infinite and are printed without any digit
    after a decimal point. On a run of the shipped configuration whose
    trials take 2^-22 s the values need 9 characters: the width of 8 is a
    minimum, not a fixed width. *)
Lemma printed_value_format_fails :
  (let s := snd (main small_config frozen_clock_env) in
   let ns := nan_sign frozen_clock_env in
   fst (main small_config frozen_clock_env) = 0 /\
   format_8_2lf ns (peak s) = "     inf" /\
   spec_value_format (format_8_2lf ns (peak s)) = false /\
   spec_value_format (format_8_2lf ns (average small_config s)) = false) /\
  (let s := snd (main proj_config fast_env) in
   let ns := nan_sign fast_env in
   format_8_2lf ns (peak s) = "137329.90" /\
   String.length (format_8_2lf ns (peak s)) = 9%nat /\
   spec_value_format (format_8_2lf ns (peak s)) = false).
Proof.
  split.
  - vm_compute. repeat split; reflexivity.
  - cbv zeta.
    destruct (main_aggregates proj_config fast_env eq_refl) as (_ & Ep & _).
    rewrite Ep. vm_compute. repeat split; reflexivity.
Qed.

(** ** Rounding gives valid numbers *)

Lemma digits2_pos_bounds (m : positive) :
  2 ^ (Zpos (digits2_pos m) - 1) <= Zpos m < 2 ^ Zpos (digits2_pos m).
Proof.
  induction m as [m IH | m IH |]; simpl digits2_pos.
  - rewrite Pos2Z.inj_succ.
    replace (Z.succ (Zpos (digits2_pos m)) - 1) with (Z.succ (Zpos (digits2_pos m) - 1)) by lia.
    rewrite !Z.pow_succ_r by lia. lia.
  - rewrite Pos2Z.inj_succ.
    replace (Z.succ (Zpos (digits2_pos m)) - 1) with (Z.succ (Zpos (digits2_pos m) - 1)) by lia.
    rewrite !Z.pow_succ_r by lia. lia.
  - simpl. lia.
Qed.

Lemma shr_1_m (mrs : shr_record) :
  0 <= shr_m mrs -> shr_m (shr_1 mrs) = shr_m mrs / 2.
Proof.
  destruct mrs as [m r s]. cbn [shr_m]. intros Hm.
  destruct m as [|[p|p|]|]; cbn [shr_1 shr_m]; try lia.
  - reflexivity.
  - apply Z.div_unique with (r := 1); lia.
  - apply Z.div_unique with (r := 0); lia.
  - reflexivity.
Qed.

Lemma shr_m_iter (p : positive) (mrs : shr_record) :
  0 <= shr_m mrs ->
  shr_m (SpecFloat.iter_pos shr_1 p mrs) = shr_m mrs / 2 ^ Zpos p.
Proof.
  revert mrs. induction p as [p IH | p IH |]; intros mrs Hm; cbn [SpecFloat.iter_pos].
  - assert (H1 : 0 <= shr_m (shr_1 mrs)).
    { rewrite shr_1_m by exact Hm. apply Z.div_pos; lia. }
    assert (H2 : 0 <= shr_m (SpecFloat.iter_pos shr_1 p (shr_1 mrs))).
    { rewrite IH by exact H1. apply Z.div_pos; [lia|]. apply Z.pow_pos_nonneg; lia. }
    assert (Hp : 0 < 2 ^ Zpos p) by (apply Z.pow_pos_nonneg; lia).
    rewrite IH by exact H2. rewrite IH by exact H1. rewrite shr_1_m by exact Hm.
    rewrite !Z.div_div by lia.
    f_equal. change (Zpos p~1) with (2 * Zpos p + 1).
    rewrite Z.pow_add_r, Z.pow_twice_r, Z.pow_1_r by lia. lia.
  - assert (Hp : 0 < 2 ^ Zpos p) by (apply Z.pow_pos_nonneg; lia).
    assert (H2 : 0 <= shr_m (SpecFloat.iter_pos shr_1 p mrs)).
    { rewrite IH by exact Hm. apply Z.div_pos; lia. }
    rewrite IH by exact H2. rewrite IH by exact Hm.
    rewrite !Z.div_div by lia.
    f_equal. change (Zpos p~0) with (2 * Zpos p).
    rewrite Z.pow_twice_r. reflexivity.
  - rewrite shr_1_m by exact Hm. reflexivity.
Qed.

Lemma Zdigits2_bounds (m : Z) :
  0 < m -> 2 ^ (Zdigits2 m - 1) <= m < 2 ^ Zdigits2 m.
Proof.
  destruct m as [|p|p]; try lia. intros _. apply digits2_pos_bounds.
Qed.

Lemma Zdigits2_nonneg (m : Z) : 0 <= Zdigits2 m.
Proof. destruct m; simpl; lia. Qed.

Lemma Zdigits2_gt (m k : Z) : 0 <= k -> 2 ^ k <= m -> k < Zdigits2 m.
Proof.
  intros Hk Hm.
  assert (0 < 2 ^ k) by (apply Z.pow_pos_nonneg; lia).
  destruct (Zdigits2_bounds m ltac:(lia)) as [_ Hhi].
  apply (Z.pow_lt_mono_r_iff 2); [lia | apply Zdigits2_nonneg | lia].
Qed.

Lemma Zdigits2_le (m k : Z) : 0 <= k -> 0 <= m < 2 ^ k -> Zdigits2 m <= k.
Proof.
  intros Hk [Hm0 Hm].
  destruct (Z.eq_dec m 0) as [-> | Hne]; [simpl; lia|].
  destruct (Zdigits2_bounds m ltac:(lia)) as [Hlo _].
  pose proof (Zdigits2_nonneg m).
  destruct (Z_le_gt_dec (Zdigits2 m) k) as [H1 | H1]; [exact H1|].
  assert (2 ^ k <= 2 ^ (Zdigits2 m - 1)) by (apply Z.pow_le_mono_r; lia).
  lia.
Qed.

Lemma Zdigits2_unique (m k : Z) :
  0 < k -> 2 ^ (k - 1) <= m < 2 ^ k -> Zdigits2 m = k.
Proof.
  intros Hk [Hlo Hhi].
  pose proof (Zdigits2_gt m (k - 1) ltac:(lia) Hlo).
  assert (0 < 2 ^ (k - 1)) by (apply Z.pow_pos_nonneg; lia).
  pose proof (Zdigits2_le m k ltac:(lia) ltac:(lia)).
  lia.
Qed.

Lemma fexp_fexp64 (x : Z) : fexp 53 1024 x = fexp64 x.
Proof. reflexivity. Qed.

Lemma shr_record_of_loc_m (m : Z) (l : location) :
  shr_m (shr_record_of_loc m l) = m.
Proof. destruct l as [|[| |]]; reflexivity. Qed.

Lemma shr_fexp_spec (m e : Z) (l : location) :
  0 <= m -> e <= fexp64 (Zdigits2 m + e) ->
  snd (shr_fexp 53 1024 m e l) = fexp64 (Zdigits2 m + e) /\
  shr_m (fst (shr_fexp 53 1024 m e l))
  = m / 2 ^ (fexp64 (Zdigits2 m + e) - e).
Proof.
  intros Hm He. unfold shr_fexp. rewrite fexp_fexp64.
  set (n := fexp64 (Zdigits2 m + e) - e).
  assert (Hn : 0 <= n) by (unfold n; lia).
  unfold shr. destruct n as [|p|p] eqn:En; try lia; cbn [fst snd].
  - rewrite shr_record_of_loc_m, Z.div_1_r. split; lia.
  - rewrite shr_m_iter by (rewrite shr_record_of_loc_m; exact Hm).
    rewrite shr_record_of_loc_m. split; [lia | reflexivity].
Qed.

Lemma shifted_bounds (m e : Z) :
  0 <= m -> e <= fexp64 (Zdigits2 m + e) ->
  let e' := fexp64 (Zdigits2 m + e) in
  let m' := m / 2 ^ (e' - e) in
  0 <= m' < 2 ^ 53 /\ -1074 <= e' /\ (2 ^ 52 <= m' \/ e' = -1074 /\ m' < 2 ^ 52).
Proof.
  intros Hm He. cbv zeta.
  set (e' := fexp64 (Zdigits2 m + e)) in *.
  assert (Hn : 0 <= e' - e) by lia.
  assert (Hp : 0 < 2 ^ (e' - e)) by (apply Z.pow_pos_nonneg; lia).
  assert (H0 : 0 <= m / 2 ^ (e' - e)) by (apply Z.div_pos; lia).
  destruct (Z.eq_dec m 0) as [-> | Hne].
  - rewrite Z.div_0_l by lia. unfold e', fexp64 in *. simpl Zdigits2 in *.
    split; [lia|]. split; [lia|]. right. lia.
  - destruct (Zdigits2_bounds m ltac:(lia)) as [Hlo Hhi].
    set (d := Zdigits2 m) in *.
    assert (Hd : 0 < d).
    { pose proof (Zdigits2_gt m 0 ltac:(lia) ltac:(simpl; lia)). lia. }
    unfold fexp64 in e'.
    destruct (Z_le_gt_dec (-1074) (d + e - 53)) as [Hc | Hc].
    + assert (Ee : e' - e = d - 53) by (unfold e'; lia).
      rewrite Ee in *.
      assert (E1 : 2 ^ d = 2 ^ 53 * 2 ^ (d - 53)).
      { rewrite <- Z.pow_add_r by lia. f_equal. lia. }
      assert (E2 : 2 ^ (d - 1) = 2 ^ 52 * 2 ^ (d - 53)).
      { rewrite <- Z.pow_add_r by lia. f_equal. lia. }
      split; [split; [exact H0|]|split; [unfold e'; lia|]].
      * apply Z.div_lt_upper_bound; lia.
      * left. apply Z.div_le_lower_bound; lia.
    + assert (Ee : e' = -1074) by (unfold e'; lia).
      assert (Hlt : m / 2 ^ (e' - e) < 2 ^ 52).
      { apply Z.div_lt_upper_bound; [lia|].
        rewrite <- Z.pow_add_r by lia.
        apply Z.lt_le_trans with (2 ^ d); [exact Hhi|].
        apply Z.pow_le_mono_r; lia. }
      split; [split; [exact H0 | simpl in *; lia]|].
      split; [lia|]. right. split; assumption.
Qed.

Lemma round_nearest_even_bounds (m : Z) (l : location) :
  m <= round_nearest_even m l <= m + 1.
Proof.
  destruct l as [|[| |]]; simpl; try lia.
  destruct (Z.even m); lia.
Qed.

Lemma binary_round_aux_valid (s : bool) (mx ex : Z) (lx : location) :
  0 <= mx -> ex <= fexp64 (Zdigits2 mx + ex) ->
  valid_binary 53 1024 (binary_round_aux 53 1024 s mx ex lx) = true.
Proof.
  intros Hm He. unfold binary_round_aux.
  destruct (shr_fexp_spec mx ex lx Hm He) as [E1 M1].
  destruct (shifted_bounds mx ex Hm He) as (Hb & Hemin & Hnorm).
  cbv zeta in Hb, Hemin, Hnorm.
  destruct (shr_fexp 53 1024 mx ex lx) as [mrs' e']. cbn [fst snd] in E1, M1.
  rewrite <- E1 in *. rewrite <- M1 in *. clear E1 M1.
  set (m' := shr_m mrs') in *.
  pose proof (round_nearest_even_bounds m' (loc_of_shr_record mrs')) as Hr.
  set (m1 := round_nearest_even m' (loc_of_shr_record mrs')) in *.
  assert (Hm1 : 0 <= m1) by lia.
  assert (He1 : e' <= fexp64 (Zdigits2 m1 + e')).
  { unfold fexp64. destruct Hnorm as [Hn | [Hn _]]; [|lia].
    pose proof (Zdigits2_gt m1 52 ltac:(lia) ltac:(lia)). lia. }
  destruct (shr_fexp_spec m1 e' loc_Exact Hm1 He1) as [E2 M2].
  destruct (shr_fexp 53 1024 m1 e' loc_Exact) as [mrs'' e'']. cbn [fst snd] in E2, M2.
  assert (Hcanon : forall p, shr_m mrs'' = Zpos p ->
                             canonical_mantissa 53 1024 p e'' = true).
  { intros p Hp. unfold canonical_mantissa. apply Z.eqb_eq.
    rewrite fexp_fexp64. change (Zpos (digits2_pos p)) with (Zdigits2 (Zpos p)).
    rewrite <- Hp, M2, E2. clear Hp.
    destruct (Z_lt_le_dec m1 (2 ^ 52)) as [Hlt | Hge].
    - assert (e' = -1074) as -> by (destruct Hnorm as [? | [? _]]; lia).
      pose proof (Zdigits2_le m1 52 ltac:(lia) ltac:(lia)) as Hd.
      pose proof (Zdigits2_nonneg m1) as Hd0.
      assert (Ef : fexp64 (Zdigits2 m1 + -1074) = -1074) by (unfold fexp64; lia).
      rewrite Ef, Z.sub_diag, Z.div_1_r. unfold fexp64. lia.
    - destruct (Z_lt_le_dec m1 (2 ^ 53)) as [Hlt | Hge2].
      + assert (Hd : Zdigits2 m1 = 53)
          by (apply Zdigits2_unique; [lia | simpl; lia]).
        assert (Ef : fexp64 (Zdigits2 m1 + e') = e') by (unfold fexp64; lia).
        rewrite Ef, Z.sub_diag, Z.div_1_r, Hd. unfold fexp64. lia.
      + assert (m1 = 2 ^ 53) as Em by lia.
        assert (Hd : Zdigits2 m1 = 54) by (rewrite Em; reflexivity).
        assert (Ef : fexp64 (Zdigits2 m1 + e') = e' + 1) by (unfold fexp64; lia).
        rewrite Ef. replace (e' + 1 - e') with 1 by lia.
        rewrite Em. change (Zdigits2 (2 ^ 53 / 2 ^ 1)) with 53.
        unfold fexp64. lia. }
  destruct (shr_m mrs'') as [|p|p] eqn:Ep; [reflexivity | | reflexivity].
  destruct (e'' <=? 1024 - 53) eqn:Ele; [|reflexivity].
  cbn [valid_binary]. unfold bounded. rewrite (Hcanon p eq_refl), Ele. reflexivity.
Qed.

Lemma fexp64_mono (x y : Z) : x <= y -> fexp64 x <= fexp64 y.
Proof. unfold fexp64. lia. Qed.

Lemma div_core_shape (m1 m2 : positive) (e1 e2 : Z) :
  exists q e' l,
    SFdiv_core_binary 53 1024 (Zpos m1) e1 (Zpos m2) e2 = (q, e', l) /\
    0 <= q /\ e' <= fexp64 (Zdigits2 q + e').
Proof.
  unfold SFdiv_core_binary. rewrite fexp_fexp64.
  set (d1 := Zdigits2 (Zpos m1)). set (d2 := Zdigits2 (Zpos m2)).
  set (e' := Z.min (fexp64 (d1 + e1 - (d2 + e2))) (e1 - e2)).
  set (s := e1 - e2 - e').
  assert (Hs : 0 <= s) by (unfold s, e'; lia).
  set (m' := match s with Zpos _ => Z.shiftl (Zpos m1) s | Z0 => Zpos m1 | Zneg _ => 0 end).
  assert (Em : m' = Zpos m1 * 2 ^ s).
  { unfold m'. destruct s as [|p|p] eqn:Es; try lia.
    rewrite Z.shiftl_mul_pow2 by lia. reflexivity. }
  pose proof (Z.div_mod m' (Zpos m2) ltac:(lia)) as Hdm.
  pose proof (Z.mod_pos_bound m' (Zpos m2) ltac:(lia)) as Hmod.
  assert (Hq : Z.div_eucl m' (Zpos m2) = (m' / Zpos m2, m' mod Zpos m2)).
  { unfold Z.div, Z.modulo. destruct (Z.div_eucl m' (Zpos m2)). reflexivity. }
  rewrite Hq. do 3 eexists. split; [reflexivity|].
  assert (Hps : 0 < 2 ^ s) by (apply Z.pow_pos_nonneg; lia).
  assert (Hm' : 0 < m') by (rewrite Em; lia).
  split; [apply Z.div_pos; lia|].
  apply Z.le_trans with (fexp64 (d1 + e1 - (d2 + e2))); [unfold e'; lia|].
  apply fexp64_mono.
  destruct (Zdigits2_bounds (Zpos m1) ltac:(lia)) as [Hlo1 _].
  destruct (Zdigits2_bounds (Zpos m2) ltac:(lia)) as [_ Hhi2].
  fold d1 in Hlo1. fold d2 in Hhi2.
  assert (Hd1 : 0 < d1) by (unfold d1; simpl; lia).
  assert (Hd2 : 0 < d2) by (unfold d2; simpl; lia).
  pose proof (Zdigits2_nonneg (m' / Zpos m2)) as Hdq.
  destruct (Z_lt_le_dec (d1 + s - d2 - 1) 0) as [Hk | Hk]; [unfold s in *; lia|].
  assert (Hgt : d1 + s - d2 - 1 < Zdigits2 (m' / Zpos m2)).
  { apply Zdigits2_gt; [exact Hk|].
    apply Z.div_le_lower_bound; [lia|].
    assert (E : 2 ^ d2 * 2 ^ (d1 + s - d2 - 1) = 2 ^ (d1 - 1) * 2 ^ s).
    { rewrite <- !Z.pow_add_r by lia. f_equal. lia. }
    assert (0 < 2 ^ (d1 + s - d2 - 1)) by (apply Z.pow_pos_nonneg; lia).
    rewrite Em. nia. }
  unfold s in *. lia.
Qed.

(** Every quotient is a valid [double], whatever the operands. *)
Lemma div_valid (x y : spec_float) :
  Double.valid (Double.div x y) = true.
Proof.
  unfold Double.valid, Double.div, Double.prec, Double.emax.
  destruct x as [sx | sx | | sx mx ex], y as [sy | sy | | sy my ey];
    try reflexivity.
  unfold SFdiv.
  destruct (div_core_shape mx my ex ey) as (q & e' & l & E & Hq & He).
  rewrite E. apply binary_round_aux_valid; assumption.
Qed.

(** ** Division by 1.0 is exact *)

Lemma div_eucl_exact (a b : Z) :
  b <> 0 -> Z.div_eucl (a * b) b = (a, 0).
Proof.
  intros Hb.
  pose proof (Z.div_mul a b Hb) as Hq.
  pose proof (Z.mod_mul a b Hb) as Hr.
  unfold Z.div, Z.modulo in Hq, Hr.
  destruct (Z.div_eucl (a * b) b) as [q r]. subst. reflexivity.
Qed.

(** The quotient before rounding: the mantissa is doubled when the number is
    normal and not in the lowest binade. *)
Lemma div_core_one (m : positive) (e : Z) :
  bounded 53 1024 m e = true ->
  SFdiv_core_binary 53 1024 (Zpos m) e 4503599627370496 (-52)
  = if (Zpos (digits2_pos m) =? 53) && (-1074 <? e)
    then (Zpos m~0, e - 1, loc_Exact)
    else (Zpos m, e, loc_Exact).
Proof.
  unfold bounded, canonical_mantissa, fexp, emin.
  intros H. apply andb_true_iff in H as [Hc He].
  apply Z.eqb_eq in Hc. apply Z.leb_le in He.
  unfold SFdiv_core_binary, fexp, emin.
  change (Zdigits2 (Zpos m)) with (Zpos (digits2_pos m)).
  change (Zdigits2 4503599627370496) with 53.
  set (d := Zpos (digits2_pos m)) in *.
  destruct ((d =? 53) && (-1074 <? e)) eqn:E.
  - apply andb_true_iff in E as [Ed Ee].
    apply Z.eqb_eq in Ed. apply Z.ltb_lt in Ee.
    replace (Z.min (Z.max (d + e - (53 + -52) - 53) (3 - 1024 - 53)) (e - -52))
      with (e - 1) by lia.
    replace (e - -52 - (e - 1)) with 53 by lia.
    rewrite Z.shiftl_mul_pow2 by lia.
    replace (Zpos m * 2 ^ 53) with (Zpos m~0 * 4503599627370496) by lia.
    rewrite div_eucl_exact by lia. reflexivity.
  - assert (e = -1074) as ->.
    { apply andb_false_iff in E as [E | E].
      - apply Z.eqb_neq in E. lia.
      - apply Z.ltb_ge in E. lia. }
    replace (Z.min (Z.max (d + -1074 - (53 + -52) - 53) (3 - 1024 - 53)) (-1074 - -52))
      with (-1074) by lia.
    replace (-1074 - -52 - -1074) with 52 by lia.
    rewrite Z.shiftl_mul_pow2 by lia.
    change (2 ^ 52) with 4503599627370496.
    rewrite div_eucl_exact by lia. reflexivity.
Qed.

Lemma shr_fexp_canonical (m : positive) (e : Z) :
  canonical_mantissa 53 1024 m e = true ->
  shr_fexp 53 1024 (Zpos m) e loc_Exact = (Build_shr_record (Zpos m) false false, e).
Proof.
  unfold canonical_mantissa. intros H. apply Z.eqb_eq in H.
  unfold shr_fexp. change (Zdigits2 (Zpos m)) with (Zpos (digits2_pos m)).
  rewrite H, Z.sub_diag. reflexivity.
Qed.

Lemma round_canonical (s : bool) (m : positive) (e : Z) :
  bounded 53 1024 m e = true ->
  binary_round_aux 53 1024 s (Zpos m) e loc_Exact = S754_finite s m e.
Proof.
  intros H. unfold bounded in H. apply andb_true_iff in H as [Hc He].
  unfold binary_round_aux.
  rewrite (shr_fexp_canonical m e Hc).
  cbn [shr_m loc_of_shr_record round_nearest_even].
  rewrite (shr_fexp_canonical m e Hc).
  cbn [shr_m]. rewrite He. reflexivity.
Qed.

Lemma round_doubled (s : bool) (m : positive) (e : Z) :
  bounded 53 1024 m e = true ->
  Zpos (digits2_pos m) = 53 -> -1074 < e ->
  binary_round_aux 53 1024 s (Zpos m~0) (e - 1) loc_Exact = S754_finite s m e.
Proof.
  intros H Hd Hlt.
  unfold bounded in H. apply andb_true_iff in H as [Hc He].
  unfold binary_round_aux.
  assert (E : shr_fexp 53 1024 (Zpos m~0) (e - 1) loc_Exact
              = (Build_shr_record (Zpos m) false false, e)).
  { unfold shr_fexp, fexp, emin.
    change (Zdigits2 (Zpos m~0)) with (Zpos (Pos.succ (digits2_pos m))).
    rewrite Pos2Z.inj_succ, Hd.
    replace (Z.max (Z.succ 53 + (e - 1) - 53) (3 - 1024 - 53) - (e - 1))
      with 1 by lia.
    unfold shr. cbn [SpecFloat.iter_pos shr_record_of_loc shr_1].
    f_equal. lia. }
  rewrite E. cbn [shr_m loc_of_shr_record round_nearest_even].
  rewrite (shr_fexp_canonical m e Hc).
  cbn [shr_m]. rewrite He. reflexivity.
Qed.

Lemma div_one (x : spec_float) :
  Double.valid x = true -> Double.div x lit_1 = x.
Proof.
  destruct x as [s | s | | s m e]; intros Hv.
  - destruct s; reflexivity.
  - destruct s; reflexivity.
  - reflexivity.
  - unfold Double.div, Double.prec, Double.emax, lit_1, SFdiv.
    unfold Double.valid, Double.prec, Double.emax in Hv. simpl in Hv.
    rewrite (div_core_one m e Hv), xorb_false_r.
    destruct ((Zpos (digits2_pos m) =? 53) && (-1074 <? e)) eqn:E.
    + apply andb_true_iff in E as [Ed Ee].
      apply Z.eqb_eq in Ed. apply Z.ltb_lt in Ee.
      apply round_doubled; assumption.
    + apply round_canonical; assumption.
Qed.

Lemma add_zero_l (x : spec_float) :
  Double.add lit_0 x = match x with S754_zero _ => lit_0 | _ => x end.
Proof. destruct x as [[|] | [|] | | s m e]; reflexivity. Qed.

(** ** C4: a single trial *)

Lemma single_trial_aggregates (x : spec_float) :
  Double.valid x = true ->
  let avg := Double.div (running_sum [x]) lit_1 in
  Double.eqb (running_max [x]) avg = Double.geb x lit_0 /\
  (Double.geb x lit_0 = true -> running_max [x] = avg) /\
  Double.eqb avg x = negb (is_nan x).
Proof.
  intros Hv. cbv zeta.
  unfold running_sum, running_max. cbn [foldl].
  rewrite add_zero_l.
  destruct x as [s | s | | s m e].
  - destruct s; repeat split; reflexivity.
  - destruct s; repeat split; try reflexivity; discriminate.
  - repeat split; try reflexivity; discriminate.
  - rewrite (div_one _ Hv).
    assert (Er : Double.eqb (S754_finite s m e) (S754_finite s m e) = true).
    { unfold Double.eqb, SFeqb.
      pose proof (SFcompare_key (S754_finite s m e) (S754_finite s m e) eq_refl eq_refl) as K.
      destruct (SFcompare _ _) as [[| |]|]; try reflexivity;
        try contradiction; unfold key_lt in K; lia. }
    destruct s; repeat split; try reflexivity; try discriminate; exact Er.
Qed.

Lemma sample_valid (cfg : config) (e : env) (t : nat) :
  Double.valid (sample cfg e t) = true.
Proof. unfold sample, spec_throughput. apply div_valid. Qed.

(** C4, as the code has it. With one trial the reported average is the
    sample of that trial, and the peak equals the average exactly when the
    sample is neither negative nor NaN; a negative sample leaves the peak
    at 0. *)
Theorem single_trial_peak_average (cfg : config) (e : env) :
  NUMTRIES cfg = 1%nat ->
  has_openmp e = true ->
  let s := snd (main cfg e) in
  Double.eqb (peak s) (average cfg s) = Double.geb (sample cfg e 0) lit_0 /\
  (Double.geb (sample cfg e 0) lit_0 = true -> peak s = average cfg s) /\
  Double.eqb (average cfg s) (sample cfg e 0) = negb (is_nan (sample cfg e 0)).
Proof.
  intros Hn Ho. cbv zeta.
  destruct (main_aggregates cfg e Ho) as (_ & Ep & _ & Ea & _).
  rewrite Ep, Ea, Hn.
  change (samples cfg e 1) with [sample cfg e 0%nat].
  change (Double.of_int (Z.of_nat 1)) with lit_1.
  exact (single_trial_aggregates _ (sample_valid cfg e 0)).
Qed.

Lemma single_trial_peak_average_witness :
  let s := snd (main single_trial_config small_env) in
  Double.eqb (peak s) (average single_trial_config s) = true.
Proof.
  destruct (single_trial_peak_average single_trial_config small_env)
    as (H & _).
  - reflexivity.
  - reflexivity.
  - cbv zeta. rewrite H. vm_compute. reflexivity.
Defined.

(** C4, as stated, fails when the clock goes backwards during the single
    trial: the sample and the average are negative and the peak stays 0. *)
Lemma single_trial_peak_differs :
  let s := snd (main single_trial_config backwards_clock_env) in
  NUMTRIES single_trial_config = 1%nat /\
  fst (main single_trial_config backwards_clock_env) = 0 /\
  peak s = lit_0 /\
  Double.gtb lit_0 (average single_trial_config s) = true /\
  Double.eqb (peak s) (average single_trial_config s) = false.
Proof. vm_compute. repeat split; reflexivity. Qed.

(** ** The order and the exact values *)

(** What validity says of a finite [double]. *)
Lemma bounded_inv (m : positive) (e : Z) :
  bounded 53 1024 m e = true ->
  -1074 <= e <= 971 /\ Zpos m < 2 ^ 53 /\ (-1074 < e -> 2 ^ 52 <= Zpos m).
Proof.
  unfold bounded, canonical_mantissa, fexp, emin. intros H.
  apply andb_true_iff in H as [Hc He].
  apply Z.eqb_eq in Hc. apply Z.leb_le in He.
  pose proof (digits2_pos_bounds m) as [Hlo Hhi].
  set (d := Zpos (digits2_pos m)) in *.
  split; [lia|]. split.
  - apply Z.lt_le_trans with (2 ^ d); [exact Hhi|].
    apply Z.pow_le_mono_r; lia.
  - intros Hlt. assert (d = 53) as Hd by lia.
    rewrite Hd in Hlo. exact Hlo.
Qed.





(** ** C3: the peak and the mean *)







Lemma geb_of_not_gtb (x y : spec_float) :
  is_nan x = false -> is_nan y = false ->
  Double.gtb x y = false -> Double.geb y x = true.
Proof.
  intros Hx Hy H. apply geb_key.
  split; [exact Hy|]. split; [exact Hx|].
  apply gtb_false_key; assumption.
Qed.





(** * Further properties of [main] *)

(** ** The parallel loop and the sequential loop *)

Lemma state_eq (s1 s2 : state) :
  A s1 = A s2 -> B s1 = B s2 -> C s1 = C s2 -> err s1 = err s2 ->
  out s1 = out s2 -> clock s1 = clock s2 ->
  maxMegaMults s1 = maxMegaMults s2 -> sum s1 = sum s2 -> s1 = s2.
Proof. destruct s1, s2; simpl; intros; subst; reflexivity. Qed.

Lemma parallel_loop_C (order1 order2 : list nat) (s1 s2 : state) :
  (forall i, i ∈ order1 <-> i ∈ order2) ->
  A s1 = A s2 -> B s1 = B s2 -> length (C s1) = length (C s2) ->
  (forall i, i ∉ order1 -> C s1 !! i = C s2 !! i) ->
  C (omp_parallel_for order1 multiply_body s1)
  = C (omp_parallel_for order2 multiply_body s2).
Proof.
  intros Hmem EA EB El Hrest. apply list_eq. intros i.
  destruct (decide (i ∈ order1)) as [Hin | Hout].
  - destruct (decide (i < length (C s1))%nat) as [Hlt | Hge].
    + rewrite (parallel_loop_written order1 s1 i Hin Hlt).
      rewrite (parallel_loop_written order2 s2 i); [rewrite EA, EB; reflexivity | |].
      * apply Hmem, Hin.
      * lia.
    + destruct (parallel_loop_frame order1 s1) as (_&_&_&_&_&_&_&L1).
      destruct (parallel_loop_frame order2 s2) as (_&_&_&_&_&_&_&L2).
      cbv zeta in L1, L2.
      rewrite !lookup_ge_None_2; [reflexivity | lia | lia].
  - rewrite parallel_loop_skipped by exact Hout.
    rewrite parallel_loop_skipped by (rewrite <- Hmem; exact Hout).
    apply Hrest, Hout.
Qed.

(** X1. For arrays of any contents, the parallel loop run by any team of
    threads in any interleaving ends in the state the plain sequential
    [for] loop ends in. *)
Theorem parallel_loop_is_sequential (numt n : nat) (order : list nat) (s : state) :
  omp_execution numt n order ->
  length (C s) = n ->
  omp_parallel_for order multiply_body s = for_loop n multiply_body s.
Proof.
  intros Hx Hlen.
  destruct (parallel_loop_frame order s) as (EA & EB & Ee & Eo & Ek & Em & Es & _).
  destruct (parallel_loop_frame (seq 0 n) s) as (FA & FB & Fe & Fo & Fk & Fm & Fs & _).
  cbv zeta in *. unfold for_loop. fold (omp_parallel_for (seq 0 n) multiply_body s).
  apply state_eq; try congruence.
  apply parallel_loop_C; try reflexivity.
  intros i. rewrite (omp_execution_elem _ _ _ i Hx), elem_of_seq. lia.
Qed.

Lemma parallel_loop_is_sequential_witness :
  omp_parallel_for small_order multiply_body (after_init small_config)
  = for_loop 4 multiply_body (after_init small_config).
Proof.
  apply (parallel_loop_is_sequential 2 4 small_order (after_init small_config)).
  - exact small_order_execution.
  - reflexivity.
Defined.

(** X2. What a trial leaves in [C] depends on [A] and [B] only: not on
    what [C] held before, not on the number of threads, not on the
    execution of the loop, not on the clock. *)
Theorem trial_output_depends_on_inputs
    (cfg1 cfg2 : config) (e1 e2 : env) (t1 t2 : nat) (s1 s2 : state) :
  SIZE cfg1 = SIZE cfg2 ->
  A s1 = A s2 -> B s1 = B s2 ->
  length (C s1) = SIZE cfg1 -> length (C s2) = SIZE cfg2 ->
  omp_execution (NUMT cfg1) (SIZE cfg1) (schedule e1 t1) ->
  omp_execution (NUMT cfg2) (SIZE cfg2) (schedule e2 t2) ->
  C (trial cfg1 e1 t1 s1) = C (trial cfg2 e2 t2 s2).
Proof.
  intros Hn EA EB L1 L2 X1 X2.
  destruct (trial_fields cfg1 e1 t1 s1) as (_ & _ & _ & _ & _ & -> & _).
  destruct (trial_fields cfg2 e2 t2 s2) as (_ & _ & _ & _ & _ & -> & _).
  apply parallel_loop_C; try assumption; [| lia |].
  - intros i. rewrite (omp_execution_elem _ _ _ i X1).
    rewrite (omp_execution_elem _ _ _ i X2). lia.
  - intros i Hi.
    assert (~ (i < SIZE cfg1)%nat) by (rewrite <- (omp_execution_elem _ _ _ i X1); exact Hi).
    rewrite !lookup_ge_None_2; [reflexivity | lia | lia].
Qed.

Lemma trial_output_depends_on_inputs_witness :
  C (trial small_config small_env 0 (after_init small_config))
  = C (trial {| NUMT := 1; SIZE := 4; NUMTRIES := 3 |} sequential_env 7
         (after_trials small_config small_env 2)).
Proof.
  apply trial_output_depends_on_inputs.
  - reflexivity.
  - vm_compute; reflexivity.
  - vm_compute; reflexivity.
  - reflexivity.
  - vm_compute; reflexivity.
  - exact small_order_execution.
  - apply omp_execution_sequential.
Defined.

(** X3. Running a trial again changes nothing in [C]: trials do not depend
    on one another through the output array. *)
Theorem repeated_trial_same_output (cfg : config) (e : env) (t t' : nat) (s : state) :
  length (C s) = SIZE cfg ->
  omp_execution (NUMT cfg) (SIZE cfg) (schedule e t) ->
  omp_execution (NUMT cfg) (SIZE cfg) (schedule e t') ->
  C (trial cfg e t' (trial cfg e t s)) = C (trial cfg e t s).
Proof.
  intros Hlen X1 X2.
  destruct (trial_fields cfg e t s) as (EA & EB & _ & _ & _ & EC & _).
  destruct (trial_fields cfg e t' (trial cfg e t s)) as (_ & _ & _ & _ & _ & -> & _).
  pose proof (trial_length_C cfg e t s) as L.
  etransitivity; [| symmetry; exact EC].
  apply parallel_loop_C; try assumption.
  - intros i. rewrite (omp_execution_elem _ _ _ i X1).
    rewrite (omp_execution_elem _ _ _ i X2). reflexivity.
  - intros i Hi.
    assert (~ (i < SIZE cfg)%nat) by (rewrite <- (omp_execution_elem _ _ _ i X2); exact Hi).
    rewrite !lookup_ge_None_2; [reflexivity | lia | lia].
Qed.

Lemma repeated_trial_same_output_witness :
  C (trial small_config small_env 1
       (trial small_config small_env 0 (after_init small_config)))
  = C (trial small_config small_env 0 (after_init small_config)).
Proof.
  apply repeated_trial_same_output.
  - reflexivity.
  - exact small_order_execution.
  - exact small_order_execution.
Defined.

(** ** What the reported numbers depend on *)

Lemma samples_ext (cfg1 cfg2 : config) (e1 e2 : env) (k : nat) :
  SIZE cfg1 = SIZE cfg2 ->
  (forall j, (j < 2 * k)%nat -> wtime e1 j = wtime e2 j) ->
  samples cfg1 e1 k = samples cfg2 e2 k.
Proof.
  intros Hn. induction k as [|k IH]; intros Hw; [reflexivity|].
  rewrite !samples_S, IH by (intros j Hj; apply Hw; lia).
  unfold sample. rewrite Hn, !Hw by lia. reflexivity.
Qed.

(** X4. The reported peak and average depend on the clock readings, [SIZE]
    and [NUMTRIES] only, and so do the two printed lines: two runs that read
    the same clock have the same peak and average, whatever their numbers of
    threads and whatever the executions of their parallel loops (even
    executions that skip or repeat iterations), and print the same text. The
    text of a NaN average also shows the sign bit of that NaN, so for the
    text the average is not a NaN or the sign is the same in both runs. *)
Theorem report_depends_on_clock_only (cfg1 cfg2 : config) (e1 e2 : env) :
  SIZE cfg1 = SIZE cfg2 -> NUMTRIES cfg1 = NUMTRIES cfg2 ->
  has_openmp e1 = true -> has_openmp e2 = true ->
  (forall j, (j < 2 * NUMTRIES cfg1)%nat -> wtime e1 j = wtime e2 j) ->
  let s1 := snd (main cfg1 e1) in
  let s2 := snd (main cfg2 e2) in
  peak s1 = peak s2 /\ average cfg1 s1 = average cfg2 s2 /\
  (is_nan (average cfg1 s1) = false \/ nan_sign e1 = nan_sign e2 ->
   out s1 = out s2).
Proof.
  intros Hn Ht H1 H2 Hw. cbv zeta.
  destruct (main_aggregates cfg1 e1 H1) as (_ & Ep1 & _ & Ea1 & Eo1 & _).
  destruct (main_aggregates cfg2 e2 H2) as (_ & Ep2 & _ & Ea2 & Eo2 & _).
  assert (E : samples cfg1 e1 (NUMTRIES cfg1) = samples cfg2 e2 (NUMTRIES cfg2)).
  { rewrite <- Ht. apply samples_ext; assumption. }
  assert (Ep : peak (snd (main cfg1 e1)) = peak (snd (main cfg2 e2)))
    by (rewrite Ep1, Ep2, E; reflexivity).
  assert (Ea : average cfg1 (snd (main cfg1 e1)) = average cfg2 (snd (main cfg2 e2)))
    by (rewrite Ea1, Ea2, E, Ht; reflexivity).
  split; [exact Ep|]. split; [exact Ea|].
  intros Hsign. rewrite Eo1, Eo2, <- Ep, <- Ea.
  unfold peak_line, average_line.
  rewrite (format_sign_irrelevant (nan_sign e1) (nan_sign e2)
             (peak (snd (main cfg1 e1))))
    by (rewrite Ep1; apply running_max_not_nan).
  destruct Hsign as [Hnn | ->]; [|reflexivity].
  rewrite (format_sign_irrelevant (nan_sign e1) (nan_sign e2) _ Hnn).
  reflexivity.
Qed.

Lemma report_depends_on_clock_only_witness :
  out (snd (main small_config small_env))
  = out (snd (main {| NUMT := 7; SIZE := 4; NUMTRIES := 3 |}
                   {| has_openmp := true; wtime := wtime small_env;
                      schedule := fun _ => [];
                      nan_sign := false |})).
Proof.
  destruct (report_depends_on_clock_only small_config
              {| NUMT := 7; SIZE := 4; NUMTRIES := 3 |} small_env
              {| has_openmp := true; wtime := wtime small_env;
                 schedule := fun _ => [];
                 nan_sign := false |}) as (_ & _ & H).
  - reflexivity.
  - reflexivity.
  - reflexivity.
  - reflexivity.
  - intros j _. reflexivity.
  - apply H. left. vm_compute. reflexivity.
Defined.

(** ** No trial at all *)

(** X5. With [NUMTRIES] 0 the run still succeeds: the clock is never read,
    [C] keeps its start-up zeros, the peak is 0 and the average, 0/0, is a
    NaN. *)
Theorem no_trials (cfg : config) (e : env) :
  NUMTRIES cfg = 0%nat ->
  has_openmp e = true ->
  let s := snd (main cfg e) in
  fst (main cfg e) = 0 /\
  clock s = 0%nat /\
  C s = replicate (SIZE cfg) (S754_zero false) /\
  A s = replicate (SIZE cfg) float_1 /\
  peak s = lit_0 /\
  average cfg s = S754_nan /\
  Double.geb (peak s) (average cfg s) = false.
Proof.
  intros Hn Ho. cbv zeta.
  destruct (main_aggregates cfg e Ho) as (E0 & Ep & _ & Ea & _ & _ & Ek).
  rewrite E0, Ep, Ea, Ek, Hn.
  rewrite (main_openmp cfg e Ho), Hn. cbn [snd].
  destruct (report_fields cfg e (after_trials cfg e 0)) as (FA & _ & FC & _).
  cbv zeta in FA, FC. rewrite FA, FC.
  destruct (after_init_fields cfg) as (EA & _ & EC & _).
  unfold after_trials. rewrite for_loop_0, EA, EC.
  repeat split; reflexivity.
Qed.

Lemma no_trials_witness :
  average {| NUMT := 2; SIZE := 4; NUMTRIES := 0 |}
    (snd (main {| NUMT := 2; SIZE := 4; NUMTRIES := 0 |} small_env))
  = S754_nan.
Proof.
  destruct (no_trials {| NUMT := 2; SIZE := 4; NUMTRIES := 0 |} small_env)
    as (_ & _ & _ & _ & _ & H & _).
  - reflexivity.
  - reflexivity.
  - exact H.
Defined.

(** ** The running maximum over the trials *)

Lemma geb_refl (x : spec_float) : is_nan x = false -> Double.geb x x = true.
Proof.
  intros Hx. apply geb_key. split; [exact Hx|]. split; [exact Hx|].
  unfold key_lt. lia.
Qed.

Lemma geb_trans (x y z : spec_float) :
  Double.geb x y = true -> Double.geb y z = true -> Double.geb x z = true.
Proof.
  intros H1 H2. apply geb_key in H1 as (Hx & Hy & H1).
  apply geb_key in H2 as (_ & Hz & H2).
  apply geb_key. split; [exact Hx|]. split; [exact Hz|].
  unfold key_lt in *. lia.
Qed.

Lemma gtb_geb (x y : spec_float) :
  Double.gtb x y = true -> Double.geb x y = true.
Proof.
  intros H. apply gtb_key in H as (Hx & Hy & H).
  apply geb_key. split; [exact Hx|]. split; [exact Hy|].
  unfold key_lt in *. lia.
Qed.

(** X6. The running maximum never decreases: after more trials it is
    greater than or equal to what it was after fewer, whatever the samples
    (negative, infinite or NaN). *)
Theorem peak_never_decreases (cfg : config) (e : env) (j k : nat) :
  (j <= k)%nat ->
  Double.geb (maxMegaMults (after_trials cfg e k))
             (maxMegaMults (after_trials cfg e j)) = true.
Proof.
  intros Hjk.
  destruct (after_trials_fields cfg e j) as (_&_&_&_&_&_&_& Ej).
  rewrite Ej. clear Ej.
  induction Hjk as [|k Hjk IH].
  - destruct (after_trials_fields cfg e j) as (_&_&_&_&_&_&_& Ej).
    rewrite Ej. apply geb_refl, running_max_not_nan.
  - destruct (after_trials_fields cfg e k) as (_&_&_&_&_&_&_& Ek).
    destruct (after_trials_fields cfg e (S k)) as (_&_&_&_&_&_&_& ESk).
    rewrite Ek in IH. rewrite ESk, samples_S, running_max_snoc.
    destruct (Double.gtb (sample cfg e k) (running_max (samples cfg e k))) eqn:E.
    + apply (geb_trans _ (running_max (samples cfg e k))); [|exact IH].
      apply gtb_geb, E.
    + exact IH.
Qed.

Lemma peak_never_decreases_witness :
  Double.geb (maxMegaMults (after_trials small_config small_env 3))
             (maxMegaMults (after_trials small_config small_env 1)) = true.
Proof.
  apply (peak_never_decreases small_config small_env 1 3). lia.
Defined.

(** X7. When some trial has a sample greater than 0, the reported peak is
    greater than 0, is the sample of one of the trials, and is greater than
    or equal to that sample. *)
Theorem positive_sample_gives_positive_peak (cfg : config) (e : env) (t : nat) :
  has_openmp e = true ->
  (t < NUMTRIES cfg)%nat ->
  Double.gtb (sample cfg e t) lit_0 = true ->
  let s := snd (main cfg e) in
  Double.gtb (peak s) lit_0 = true /\
  peak s ∈ samples cfg e (NUMTRIES cfg) /\
  Double.geb (peak s) (sample cfg e t) = true.
Proof.
  intros Ho Ht Hpos. cbv zeta.
  destruct (main_aggregates cfg e Ho) as (_ & -> & _).
  set (xs := samples cfg e (NUMTRIES cfg)).
  assert (Hin : sample cfg e t ∈ xs) by (apply sample_in_samples; exact Ht).
  pose proof (running_max_upper_bound xs _ Hin) as Hub.
  pose proof (running_max_not_nan xs) as Hnn.
  apply gtb_key in Hpos as (Hx & _ & Hlt).
  pose proof (gtb_false_key _ _ Hx Hnn Hub) as Hle.
  assert (Hgt : Double.gtb (running_max xs) lit_0 = true).
  { apply gtb_key. split; [exact Hnn|]. split; [reflexivity|].
    unfold key_lt in *. lia. }
  split; [exact Hgt|]. split.
  - destruct (running_max_member xs) as [E | Hm]; [|exact Hm].
    rewrite E in Hgt. discriminate.
  - apply geb_of_not_gtb; assumption.
Qed.

Lemma positive_sample_gives_positive_peak_witness :
  Double.gtb (peak (snd (main small_config small_env))) lit_0 = true.
Proof.
  destruct (positive_sample_gives_positive_peak small_config small_env 1) as (H & _).
  - reflexivity.
  - simpl; lia.
  - vm_compute; reflexivity.
  - exact H.
Defined.

(** ** The error stream *)

Lemma no_newline_pretty_N (n : N) : no_newline (pretty n) = true.
Proof.
  unfold pretty, pretty_N.
  destruct (decide (n = 0%N)); [reflexivity|].
  apply no_newline_pretty_go. reflexivity.
Qed.

(** X8. Every run writes exactly one line to the error stream: the
    diagnostic when OpenMP is missing (and then nothing to standard output),
    the thread-count announcement otherwise. *)
Theorem one_line_on_stderr (cfg : config) (e : env) :
  let s := snd (main cfg e) in
  exists line,
    err s = line +:+ newline /\ no_newline line = true /\
    (has_openmp e = false ->
     line = "OpenMP is not supported here -- sorry." /\ out s = "") /\
    (has_openmp e = true ->
     line = "Using " +:+ pretty (N.of_nat (NUMT cfg)) +:+ " threads").
Proof.
  cbv zeta. destruct (has_openmp e) eqn:Ho.
  - destruct (main_aggregates cfg e Ho) as (_ & _ & _ & _ & _ & Ee & _).
    exists ("Using " +:+ pretty (N.of_nat (NUMT cfg)) +:+ " threads").
    split; [|split; [|split; [discriminate | reflexivity]]].
    + rewrite Ee. unfold using_threads_message.
      rewrite !string_app_assoc. reflexivity.
    + rewrite !no_newline_app, no_newline_pretty_N. reflexivity.
  - rewrite (main_no_openmp cfg e Ho).
    exists "OpenMP is not supported here -- sorry.".
    repeat split; try reflexivity. discriminate.
Qed.

(** ** A trial during which the clock stands still *)

Lemma binary_round_aux_normal (s : bool) (mx ex : Z) (lx : location) :
  0 < mx -> ex <= fexp64 (Zdigits2 mx + ex) ->
  -1074 <= Zdigits2 mx + ex - 53 ->
  (exists m e, binary_round_aux 53 1024 s mx ex lx = S754_finite s m e) \/
  binary_round_aux 53 1024 s mx ex lx = S754_infinity s.
Proof.
  intros Hm He Hn. unfold binary_round_aux.
  destruct (shr_fexp_spec mx ex lx ltac:(lia) He) as [E1 M1].
  destruct (shifted_bounds mx ex ltac:(lia) He) as (Hb & _ & _).
  cbv zeta in Hb.
  assert (Hlow : 2 ^ 52 <= mx / 2 ^ (fexp64 (Zdigits2 mx + ex) - ex)).
  { destruct (Zdigits2_bounds mx Hm) as [Hlo _].
    set (d := Zdigits2 mx) in *.
    assert (Ee : fexp64 (d + ex) - ex = d - 53) by (unfold fexp64 in *; lia).
    rewrite Ee.
    assert (0 <= d - 53) by (unfold fexp64 in *; lia).
    assert (E2 : 2 ^ (d - 1) = 2 ^ 52 * 2 ^ (d - 53)).
    { rewrite <- Z.pow_add_r by lia. f_equal. lia. }
    assert (0 < 2 ^ (d - 53)) by (apply Z.pow_pos_nonneg; lia).
    apply Z.div_le_lower_bound; lia. }
  destruct (shr_fexp 53 1024 mx ex lx) as [mrs' e']. cbn [fst snd] in E1, M1.
  rewrite <- M1 in Hb, Hlow.
  assert (He' : -1074 <= e') by (rewrite E1; unfold fexp64; lia).
  clear E1 M1.
  set (m' := shr_m mrs') in *.
  pose proof (round_nearest_even_bounds m' (loc_of_shr_record mrs')) as Hr.
  set (m1 := round_nearest_even m' (loc_of_shr_record mrs')) in *.
  assert (Hd1 : 52 < Zdigits2 m1) by (apply Zdigits2_gt; lia).
  assert (He1 : e' <= fexp64 (Zdigits2 m1 + e')) by (unfold fexp64; lia).
  destruct (shr_fexp_spec m1 e' loc_Exact ltac:(lia) He1) as [E2 M2].
  destruct (shr_fexp 53 1024 m1 e' loc_Exact) as [mrs'' e'']. cbn [fst snd] in E2, M2.
  assert (Hpos : 0 < shr_m mrs'').
  { rewrite M2.
    destruct (Z_lt_le_dec m1 (2 ^ 53)) as [Hlt | Hge].
    - assert (Hd : Zdigits2 m1 = 53)
        by (apply Zdigits2_unique; [lia | simpl; lia]).
      assert (Ef : fexp64 (Zdigits2 m1 + e') = e') by (unfold fexp64; lia).
      rewrite Ef, Z.sub_diag, Z.div_1_r. lia.
    - assert (m1 = 2 ^ 53) as Em by lia.
      assert (Hd : Zdigits2 m1 = 54) by (rewrite Em; reflexivity).
      assert (Ef : fexp64 (Zdigits2 m1 + e') = e' + 1) by (unfold fexp64; lia).
      rewrite Ef. replace (e' + 1 - e') with 1 by lia.
      rewrite Em. reflexivity. }
  destruct (shr_m mrs'') as [|p|p]; try lia.
  destruct (e'' <=? 1024 - 53); [left; eauto | right; reflexivity].
Qed.

Lemma iter_xO_value (p d : positive) :
  Zpos (Pos.iter xO p d) = Zpos p * 2 ^ Zpos d.
Proof.
  induction d as [|d IH] using Pos.peano_ind.
  - simpl. lia.
  - rewrite Pos.iter_succ, Pos2Z.inj_succ, Z.pow_succ_r by lia.
    change (Zpos (Pos.iter xO p d)~0) with (2 * Zpos (Pos.iter xO p d)).
    rewrite IH. ring.
Qed.

(** The conversion of a positive integer is a positive number. *)
Lemma of_int_positive (p : positive) :
  (exists m e, Double.of_int (Zpos p) = S754_finite false m e) \/
  Double.of_int (Zpos p) = S754_infinity false.
Proof.
  unfold Double.of_int, Double.prec, Double.emax, binary_normalize, binary_round.
  rewrite fexp_fexp64, Z.add_0_r.
  pose proof (digits2_pos_bounds p) as [Hlo Hhi].
  set (dp := Zpos (digits2_pos p)) in *.
  assert (Hdp : 0 < dp) by (unfold dp; lia).
  assert (Ef : fexp64 dp = dp - 53) by (unfold fexp64; lia).
  unfold shl_align. rewrite Ef.
  destruct (dp - 53 - 0) as [|q|d] eqn:Ed.
  - apply binary_round_aux_normal; [lia | |];
      change (Zdigits2 (Zpos p)) with dp; unfold fexp64; lia.
  - apply binary_round_aux_normal; [lia | |];
      change (Zdigits2 (Zpos p)) with dp; unfold fexp64; lia.
  - assert (Hd : Zdigits2 (Zpos (Pos.iter xO p d)) = 53).
    { apply Zdigits2_unique; [lia|]. rewrite iter_xO_value.
      assert (Zpos d = 53 - dp) as -> by lia.
      assert (E1 : 2 ^ (53 - 1) = 2 ^ (dp - 1) * 2 ^ (53 - dp)).
      { rewrite <- Z.pow_add_r by lia. f_equal. lia. }
      assert (E2 : 2 ^ 53 = 2 ^ dp * 2 ^ (53 - dp)).
      { rewrite <- Z.pow_add_r by lia. f_equal. lia. }
      assert (0 < 2 ^ (53 - dp)) by (apply Z.pow_pos_nonneg; lia).
      rewrite E1, E2. nia. }
    apply binary_round_aux_normal; [lia | |]; rewrite Hd; unfold fexp64; lia.
Qed.

Lemma sub_self (x : spec_float) :
  is_finite x = true -> Double.sub x x = S754_zero false.
Proof.
  destruct x as [[|] | s | | s m e]; intros H; try discriminate; try reflexivity.
  unfold Double.sub, SFsub. rewrite Z.sub_diag. reflexivity.
Qed.

Lemma frozen_sample (n : nat) (t : spec_float) :
  (0 < n)%nat -> is_finite t = true ->
  spec_throughput n t t = S754_infinity false.
Proof.
  intros Hn Ht. unfold spec_throughput. rewrite (sub_self t Ht).
  change (Double.of_int 1000000) with lit_1000000.
  destruct n as [|n]; [lia|].
  change (Z.of_nat (S n)) with (Zpos (Pos.of_succ_nat n)).
  destruct (of_int_positive (Pos.of_succ_nat n)) as [(m & e & ->) | ->];
    reflexivity.
Qed.

Lemma running_max_infinite (xs : list spec_float) :
  S754_infinity false ∈ xs -> running_max xs = S754_infinity false.
Proof.
  intros Hin.
  pose proof (running_max_upper_bound xs _ Hin) as Hub.
  pose proof (running_max_not_nan xs) as Hnn.
  pose proof (gtb_false_key (S754_infinity false) (running_max xs)
                eq_refl Hnn Hub) as Hle.
  unfold key_lt in Hle.
  destruct (running_max xs) as [s | [|] | | [|] m e]; simpl in *;
    try discriminate; try reflexivity; lia.
Qed.

(** X9. Nothing guards the division by the elapsed time: when the two
    clock readings of some trial are the same finite number (and [SIZE] is
    not 0), the sample of that trial is +infinity, the reported peak is
    +infinity and is printed as [inf], and the reported average is infinite
    or NaN. *)
Theorem frozen_clock_gives_infinite_peak (cfg : config) (e : env) (t : nat) :
  has_openmp e = true ->
  (0 < SIZE cfg)%nat ->
  (t < NUMTRIES cfg)%nat ->
  is_finite (wtime e (2 * t)%nat) = true ->
  wtime e (2 * t + 1)%nat = wtime e (2 * t)%nat ->
  let s := snd (main cfg e) in
  sample cfg e t = S754_infinity false /\
  peak s = S754_infinity false /\
  format_8_2lf (nan_sign e) (peak s) = "     inf" /\
  is_finite (average cfg s) = false.
Proof.
  intros Ho Hn Ht Hfin Heq. cbv zeta.
  assert (Es : sample cfg e t = S754_infinity false).
  { unfold sample. rewrite Heq. apply frozen_sample; assumption. }
  destruct (main_aggregates cfg e Ho) as (_ & Ep & _ & Ea & _).
  assert (Hin : S754_infinity false ∈ samples cfg e (NUMTRIES cfg)).
  { rewrite <- Es. apply sample_in_samples, Ht. }
  rewrite Ep, Ea, (running_max_infinite _ Hin).
  split; [exact Es|]. split; [reflexivity|]. split; [reflexivity|].
  apply div_not_finite.
  apply (running_sum_not_finite _ (S754_infinity false)); [exact Hin | reflexivity].
Qed.

Lemma frozen_clock_gives_infinite_peak_witness :
  peak (snd (main small_config frozen_clock_env)) = S754_infinity false.
Proof.
  destruct (frozen_clock_gives_infinite_peak small_config frozen_clock_env 2)
    as (_ & H & _).
  - reflexivity.
  - simpl; lia.
  - simpl; lia.
  - reflexivity.
  - reflexivity.
  - exact H.
Defined.

(** ** Values that fit the field of 8 characters *)

Lemma length_pretty_go (k : nat) (x : N) (s : string) :
  (x < 10 ^ N.of_nat k)%N ->
  (String.length (pretty_N_go x s) <= String.length s + k)%nat.
Proof.
  revert x s. induction k as [|k IH]; intros x s Hx.
  - assert (x = 0%N) as -> by (simpl in Hx; lia).
    rewrite pretty_N_go_0. lia.
  - destruct (N.eq_dec x 0%N) as [-> | Hne].
    + rewrite pretty_N_go_0. lia.
    + rewrite pretty_N_go_step by lia.
      rewrite Nat2N.inj_succ, N.pow_succ_r' in Hx.
      assert (Hq : (x `div` 10 < 10 ^ N.of_nat k)%N)
        by (apply N.Div0.div_lt_upper_bound; lia).
      specialize (IH _ (String (pretty_N_char (x `mod` 10)) s) Hq).
      simpl in IH. lia.
Qed.

Lemma decimal_length_5 (n : Z) :
  0 <= n < 100000 -> (String.length (decimal n) <= 5)%nat.
Proof.
  intros Hn. unfold decimal, pretty, pretty_N.
  destruct (decide (Z.to_N n = 0%N)); [simpl; lia|].
  apply (length_pretty_go 5 (Z.to_N n) "").
  change (10 ^ N.of_nat 5)%N with 100000%N. lia.
Qed.

Lemma round_half_even_bound (num den bound : Z) :
  0 < den -> 0 <= num -> 2 * num < (2 * bound + 1) * den ->
  0 <= round_half_even num den <= bound.
Proof.
  intros Hd Hn Hlt. unfold round_half_even.
  pose proof (Z.div_mod num den ltac:(lia)) as E.
  pose proof (Z.mod_pos_bound num den Hd) as Hr.
  assert (Hq : 0 <= num / den) by (apply Z.div_pos; lia).
  set (q := num / den) in *. set (r := num mod den) in *.
  destruct (Z.compare_spec (2 * r) den) as [Heq | Hl | Hg].
  - assert (q + 1 <= bound) by nia. destruct (Z.even q); lia.
  - nia.
  - nia.
Qed.

(** The digits printed for a valid number of value below 99999.995. *)
Lemma hundredths_bound (m : positive) (e : Z) :
  -1074 <= e ->
  Zpos m * 2 ^ (e + 1074) * 1000 < 99999995 * 2 ^ 1074 ->
  0 <= hundredths m e <= 9999999.
Proof.
  intros He Hlt. unfold hundredths.
  destruct e as [|p|p].
  - change (2 ^ (0 + 1074)) with (2 ^ 1074) in Hlt.
    assert (0 < 2 ^ 1074) by (apply Z.pow_pos_nonneg; lia).
    change (2 ^ 0) with 1. nia.
  - rewrite Z.pow_add_r in Hlt by lia.
    assert (0 < 2 ^ 1074) by (apply Z.pow_pos_nonneg; lia).
    assert (0 < 2 ^ Zpos p) by (apply Z.pow_pos_nonneg; lia).
    nia.
  - assert (E : 2 ^ 1074 = 2 ^ Zpos p * 2 ^ (Zneg p + 1074)).
    { rewrite <- Z.pow_add_r by lia. f_equal. lia. }
    assert (0 < 2 ^ (Zneg p + 1074)) by (apply Z.pow_pos_nonneg; lia).
    assert (0 < 2 ^ Zpos p) by (apply Z.pow_pos_nonneg; lia).
    rewrite E in Hlt.
    apply round_half_even_bound; [lia | lia |].
    nia.
Qed.

Lemma moderate_value_width (ns : bool) (x : spec_float) :
  Double.valid x = true -> is_finite x = true ->
  Qle (0 # 1) (Double.to_Q x) -> Qlt (Double.to_Q x) (99999995 # 1000) ->
  String.length (format_8_2lf ns x) = 8%nat.
Proof.
  intros Hv Hf H0 Hlt. rewrite length_format.
  destruct x as [s | s | | s m e]; try discriminate.
  - destruct s; reflexivity.
  - unfold Double.valid, Double.prec, Double.emax in Hv. simpl in Hv.
    destruct (bounded_inv m e Hv) as (He & _).
    unfold Qle, Qlt, Double.to_Q in H0, Hlt. cbn [Qnum Qden] in H0, Hlt.
    rewrite Pos2Z.inj_pow in Hlt.
    assert (Hp : 0 < 2 ^ (e + 1074)) by (apply Z.pow_pos_nonneg; lia).
    unfold Double.scaled in H0, Hlt.
    destruct s; [simpl in H0; lia|]. simpl cond_Zopp in Hlt.
    destruct (hundredths_bound m e ltac:(lia) ltac:(lia)) as [Hn0 Hn].
    unfold fixed2. cbn [sign_text].
    destruct (decimal_digit (hundredths m e / 10 mod 10)) as (c1 & -> & _);
      [apply Z.mod_pos_bound; lia|].
    destruct (decimal_digit (hundredths m e mod 10)) as (c2 & -> & _);
      [apply Z.mod_pos_bound; lia|].
    assert (Hi : 0 <= hundredths m e / 100 < 100000).
    { split; [apply Z.div_pos; lia | apply Z.div_lt_upper_bound; lia]. }
    pose proof (decimal_length_5 _ Hi) as Hl.
    rewrite !string_length_app. simpl String.length. lia.
Qed.

Lemma running_max_valid (xs : list spec_float) :
  Forall (fun x => Double.valid x = true) xs ->
  Double.valid (running_max xs) = true.
Proof.
  intros H. destruct (running_max_member xs) as [-> | Hin]; [reflexivity|].
  rewrite Forall_forall in H. apply H, Hin.
Qed.

(** X10. A reported value that is finite, not negative and less than
    99999.995 is printed in exactly 8 characters ending with a decimal point
    and two digits: for such values the two result lines have a fixed
    layout. *)
Theorem moderate_values_fit_the_field (cfg : config) (e : env) (v : spec_float) :
  has_openmp e = true ->
  v = peak (snd (main cfg e)) \/ v = average cfg (snd (main cfg e)) ->
  is_finite v = true ->
  Qle (0 # 1) (Double.to_Q v) ->
  Qlt (Double.to_Q v) (99999995 # 1000) ->
  String.length (format_8_2lf (nan_sign e) v) = 8%nat /\
  two_decimals (format_8_2lf (nan_sign e) v) = true /\
  spec_value_format (format_8_2lf (nan_sign e) v) = true.
Proof.
  intros Ho Hv Hf H0 Hlt.
  destruct (main_aggregates cfg e Ho) as (_ & Ep & _ & Ea & _).
  assert (Hvalid : Double.valid v = true).
  { destruct Hv as [-> | ->].
    - rewrite Ep. apply running_max_valid, Forall_forall.
      intros x Hx. unfold samples in Hx.
      apply list_elem_of_fmap in Hx as (t & -> & _). apply sample_valid.
    - rewrite Ea. apply div_valid. }
  pose proof (moderate_value_width (nan_sign e) v Hvalid Hf H0 Hlt) as Hw.
  pose proof (two_decimals_finite (nan_sign e) v Hf) as Hd.
  unfold spec_value_format. rewrite Hw, Hd. repeat split; reflexivity.
Qed.

Lemma moderate_values_fit_the_field_witness :
  spec_value_format
    (format_8_2lf (nan_sign small_env) (peak (snd (main small_config small_env))))
  = true.
Proof.
  destruct (moderate_values_fit_the_field small_config small_env
              (peak (snd (main small_config small_env)))) as (_ & _ & H).
  - reflexivity.
  - left; reflexivity.
  - vm_compute; reflexivity.
  - vm_compute; discriminate.
  - vm_compute; reflexivity.
  - exact H.
Defined.

(** ** A NaN sample *)

Lemma add_nan_l (y : spec_float) : Double.add S754_nan y = S754_nan.
Proof. destruct y; reflexivity. Qed.

Lemma add_nan_r (x : spec_float) : Double.add x S754_nan = S754_nan.
Proof. destruct x; reflexivity. Qed.

Lemma running_sum_nan (xs : list spec_float) :
  S754_nan ∈ xs -> running_sum xs = S754_nan.
Proof.
  induction xs as [|y xs IH] using rev_ind; [inversion 1|].
  intros Hin. rewrite running_sum_snoc.
  apply elem_of_app in Hin as [Hin | Hin].
  - rewrite (IH Hin). apply add_nan_l.
  - apply list_elem_of_singleton in Hin as <-. apply add_nan_r.
Qed.

Lemma running_max_skips_nan (xs ys : list spec_float) :
  running_max (xs ++ S754_nan :: ys) = running_max (xs ++ ys).
Proof.
  unfold running_max. rewrite !foldl_app. cbn [foldl].
  destruct (foldl _ lit_0 xs); reflexivity.
Qed.

(** X11. A sample that is a NaN is never taken as the peak, since no
    comparison with a NaN holds: the peak is what it would be without that
    trial, and is not a NaN. The sum takes it in, and the reported average
    is a NaN. *)
Theorem nan_sample_skipped_by_peak (cfg : config) (e : env) (t : nat) :
  has_openmp e = true ->
  (t < NUMTRIES cfg)%nat ->
  sample cfg e t = S754_nan ->
  let s := snd (main cfg e) in
  let xs := samples cfg e (NUMTRIES cfg) in
  peak s = running_max (take t xs ++ drop (S t) xs) /\
  is_nan (peak s) = false /\
  average cfg s = S754_nan.
Proof.
  intros Ho Ht Hnan. cbv zeta.
  destruct (main_aggregates cfg e Ho) as (_ & Ep & _ & Ea & _).
  set (xs := samples cfg e (NUMTRIES cfg)) in *.
  assert (Hl : xs !! t = Some S754_nan).
  { unfold xs, samples. rewrite list_lookup_fmap, lookup_seq_lt by exact Ht.
    simpl. rewrite Hnan. reflexivity. }
  rewrite Ep, Ea. split; [|split].
  - rewrite <- (take_drop_middle xs t S754_nan Hl) at 1.
    apply running_max_skips_nan.
  - apply running_max_not_nan.
  - rewrite running_sum_nan; [reflexivity|].
    apply list_elem_of_lookup. exists t. exact Hl.
Qed.

Lemma nan_sample_skipped_by_peak_witness :
  let e := {| has_openmp := true;
              wtime := fun k => match k with 2%nat => S754_nan | _ => lit_1 end;
              schedule := fun _ => small_order;
     nan_sign := true |} in
  average small_config (snd (main small_config e)) = S754_nan.
Proof.
  cbv zeta.
  destruct (nan_sample_skipped_by_peak small_config
              {| has_openmp := true;
                 wtime := fun k => match k with 2%nat => S754_nan | _ => lit_1 end;
                 schedule := fun _ => small_order;
     nan_sign := true |} 1) as (_ & _ & H).
  - reflexivity.
  - simpl; lia.
  - vm_compute; reflexivity.
  - exact H.
Defined.
